(** * Resource-limit admission and observation: a shallow embedding

    The Go packages [pkg/resourcecontroller] (the observation reconciler),
    [plugin/pkg/admission/resourcelimits] (the admission plug-in, its
    registry of admission functions and the built-in observers) and the
    four scope packages [namespace], [pod], [container] and
    [replicationcontroller] are embedded as Rocq functions.

    Conventions of the embedding:
    - [int64] values are [Z] with the wrap-around written out ([wrap64]);
    - a Go map that is shared between objects (an [api.ResourceList]) is a
      location of a heap of maps, so that two groups holding the same map
      see each other's writes; [None] is the nil map;
    - a Go map that is only local to a function is a [gmap];
    - the order in which [range] visits a Go map is left open: it is an
      argument ([RangeOrder]) of every function that ranges over a map;
    - a function that can panic (a failed type assertion, a write into a
      nil map, a nil pointer) returns [Panics]. *)

From Stdlib Require Import ZArith Lia.
From stdpp Require Import base option list gmap strings fin_maps.

Local Open Scope string_scope.
Local Open Scope Z_scope.

(** ** int64 arithmetic *)

Definition wrap64 (z : Z) : Z := (z + 2 ^ 63) mod 2 ^ 64 - 2 ^ 63.

Definition int64_range (z : Z) : Prop := - 2 ^ 63 <= z < 2 ^ 63.

Definition add64 (a b : Z) : Z := wrap64 (a + b).

(** ** resource.Quantity *)

Module resource.

Inductive Format := FormatUnset | DecimalExponent | BinarySI | DecimalSI.

(** Modelled from the spec: the type [resource.Quantity] of
    [pkg/api/resource], which is not part of the sources at hand.  The
    spec describes it as a magnitude with two views, the value (integral
    units) and the milli-value (thousandths), built from either view
    with a scale tag.  The magnitude is kept in thousandths; the value
    view rounds away from zero to whole units, and both views are
    truncated to int64 as the Go accessors return int64. *)
Record Quantity := { Amount : Z; QFormat : Format }.

Definition zero : Quantity := {| Amount := 0; QFormat := FormatUnset |}.

Definition roundUp (m : Z) : Z :=
  if 0 <=? m then (m + 999) / 1000 else - ((- m + 999) / 1000).

Definition Value (q : Quantity) : Z := wrap64 (roundUp (Amount q)).

Definition MilliValue (q : Quantity) : Z := wrap64 (Amount q).

Definition NewQuantity (value : Z) (format : Format) : Quantity :=
  {| Amount := value * 1000; QFormat := format |}.

Definition NewMilliQuantity (value : Z) (format : Format) : Quantity :=
  {| Amount := value; QFormat := format |}.

#[global] Instance Format_eq_dec : EqDecision Format.
Proof. solve_decision. Defined.

#[global] Instance Quantity_eq_dec : EqDecision Quantity.
Proof. solve_decision. Defined.

End resource.

Import resource.

(** ** The API objects *)

Module api.

Definition ResourceName := string.

(** A Go slice that may be nil: [None] is nil, [Some l] has the elements
    [l].  Only [== nil] tells the two kinds of empty slice apart. *)
Definition elems {A} (s : option (list A)) : list A := default [] s.

(** [api.ResourceList] is [map[ResourceName]resource.Quantity], a
    reference: [None] is the nil map, [Some l] the map stored at location
    [l] of the heap. *)
Abbreviation loc := positive.
Definition ResourceList := option loc.

Record ResourceControllerGroup := {
  GroupBy : string;
  RuleType : string;
  Resources : ResourceList }.

(** The zero value, as [make] fills a slice with. *)
Definition zeroGroup : ResourceControllerGroup :=
  {| GroupBy := ""; RuleType := ""; Resources := None |}.

Definition ResourceControllerGroupByNamespace := "Namespace".
Definition ResourceControllerGroupByPod := "Pod".
Definition ResourceControllerGroupByContainer := "Container".
Definition ResourceControllerGroupByReplicationController := "ReplicationController".
Definition ResourceControllerRuleTypeMax := "Max".
Definition ResourceControllerRuleTypeMin := "Min".

Definition NamespaceAll := "".

Record ResourceControllerStatus := {
  Allowed : option (list ResourceControllerGroup);
  Allocated : option (list ResourceControllerGroup) }.

Record ResourceControllerSpec := {
  Spec_Allowed : option (list ResourceControllerGroup) }.

Record ObjectMeta := {
  Name : string;
  Namespace : string;
  ResourceVersion : string }.

Record ResourceController := {
  RC_Meta : ObjectMeta;
  Spec : ResourceControllerSpec;
  Status : ResourceControllerStatus }.

Record ResourceObservation := {
  Obs_Meta : ObjectMeta;
  Obs_Status : ResourceControllerStatus }.

Record ResourceControllerList := { Items : list ResourceController }.

Record Container := {
  Container_Name : string;
  CPU : Quantity;
  Memory : Quantity }.

Record Pod := {
  Pod_Name : string;
  Spec_Containers : list Container }.

Record PodList := { Pod_Items : list Pod }.

Record Service := { Service_Name : string }.

Record ServiceList := { Service_Items : list Service }.

Record ReplicationController := {
  ReplicationController_Name : string;
  Spec_Replicas : Z }.

Record ReplicationControllerList := {
  ReplicationController_Items : list ReplicationController }.

(** [runtime.Object] as the admission functions meet it. *)
Inductive Object :=
| NilObject
| PodObject (p : Pod)
| ServiceObject (s : Service)
| ReplicationControllerObject (r : ReplicationController)
| OtherObject (name : string).

(** [admission.Attributes]. *)
Record Attributes := {
  GetNamespace : string;
  GetKind : string;
  GetOperation : string;
  GetObject : Object }.

#[global] Instance ResourceControllerGroup_eq_dec : EqDecision ResourceControllerGroup.
Proof. solve_decision. Defined.

#[global] Instance ResourceControllerStatus_eq_dec : EqDecision ResourceControllerStatus.
Proof. solve_decision. Defined.

#[global] Instance ObjectMeta_eq_dec : EqDecision ObjectMeta.
Proof. solve_decision. Defined.

#[global] Instance ResourceObservation_eq_dec : EqDecision ResourceObservation.
Proof. solve_decision. Defined.

End api.

Import api.

(** [meta.NewAccessor().Name(obj)]: the name, or an error on nil. *)
Definition accessorName (obj : Object) : option string :=
  match obj with
  | NilObject => None
  | PodObject p => Some (Pod_Name p)
  | ServiceObject s => Some (Service_Name s)
  | ReplicationControllerObject r => Some (ReplicationController_Name r)
  | OtherObject n => Some n
  end.

(** ** Errors *)

(** The text of an error, with the values its format string is filled
    with. *)
Inductive Reason :=
| WaitingForObservation
| LimitedTo (limit : Quantity) (kind ns : string)
| LimitCPU (limit : Quantity) (ns : string)
| LimitMemory (limit : Quantity) (ns : string)
| CannotEnforce (op kind : string)
| PodMemoryAboveMax (usage limit : Quantity)
| PodCPUAboveMax (usage limit : Quantity)
| PodMemoryBelowMin (usage limit : Quantity)
| PodCPUBelowMin (usage limit : Z)
| ContainerMemoryAboveMax (op container : string) (request limit : Quantity)
| ContainerCPUAboveMax (op container : string) (request limit : Quantity)
| ContainerCPUBelowMin (op container : string) (request limit : Quantity)
| ContainerMemoryBelowMin (op container : string) (request : Quantity) (limit : Z)
| ReplicasAboveMax (replicas : Z) (limit : Quantity).

Inductive Error :=
| Forbidden (kind name : string) (reason : Reason)
| StoreError (msg : string).

(** ** The heap of shared maps, and the world *)

Abbreviation Heap := (gmap positive (gmap string Quantity)).

(** The map stored at a location; a location never allocated holds
    nothing. *)
Definition mapAt (h : Heap) (l : loc) : gmap string Quantity :=
  default ∅ (h !! l).

(** [m[name]] with the comma-ok form: reading a nil map finds nothing. *)
Definition readMap (h : Heap) (m : ResourceList) (name : string) : option Quantity :=
  match m with
  | None => None
  | Some l => mapAt h l !! name
  end.

(** The second result of the comma-ok form. *)
Definition found {A} (o : option A) : bool :=
  match o with
  | Some _ => true
  | None => false
  end.

(** [api.ResourceList{}]: a new, empty map. *)
Definition newMap (h : Heap) : loc * Heap :=
  let l := fresh (dom h) in (l, <[l := ∅]> h).

Inductive LogEntry :=
| SynchronizationError (e : Error)
| ErrorSynchronizing (e : Error).

(** What the program has done to its surroundings: the heap, the
    observations handed to [ResourceObservations(ns).Create] (each with the
    heap it was sent from, which fixes its content) and the error log. *)
Record World := {
  heap : Heap;
  created : list (ResourceObservation * Heap);
  logged : list LogEntry }.

Definition setHeap (h : Heap) (w : World) : World :=
  {| heap := h; created := created w; logged := logged w |}.

Inductive Outcome (A : Type) :=
| Returns (a : A) (w : World)
| Panics.
Arguments Returns {A} a w.
Arguments Panics {A}.

Definition M (A : Type) : Type := World → Outcome A.

Definition ret {A} (a : A) : M A := λ w, Returns a w.

Definition bind {A B} (k : A → M B) (m : M A) : M B :=
  λ w, match m w with
       | Returns a w' => k a w'
       | Panics => Panics
       end.

#[global] Instance M_ret : MRet M := @ret.
#[global] Instance M_bind : MBind M := @bind.

Definition panic {A} : M A := λ _, Panics.

Definition getHeap : M Heap := λ w, Returns (heap w) w.

Definition putHeap (h : Heap) : M unit := λ w, Returns tt (setHeap h w).

Definition glogErrorf (e : LogEntry) : M unit :=
  λ w, Returns tt {| heap := heap w; created := created w; logged := logged w ++ [e] |}.

(** [m[name] = q]: a write into a nil map panics. *)
Definition writeMap (m : ResourceList) (name : string) (q : Quantity) : M unit :=
  match m with
  | None => panic
  | Some l => h ← getHeap; putHeap (<[l := <[name := q]> (mapAt h l)]> h)
  end.

(** ** Ranging over a Go map *)

(** Go does not fix the order in which [range] visits the entries of a
    map.  Every function that ranges over a map takes the order as an
    argument; an order is admissible when it visits each entry once. *)
Record RangeOrder := { range : ∀ A : Type, gmap string A → list (string * A) }.
Arguments range _ {A} _.

Definition admissible (o : RangeOrder) : Prop :=
  ∀ (A : Type) (m : gmap string A), range o m ≡ₚ map_to_list m.

(** The order of the keys, as one admissible order. *)
Definition keyOrder : RangeOrder := {| range := λ A m, map_to_list m |}.

(** The entries of a [ResourceList], as [range] meets them: a nil map has
    none. *)
Definition entries (h : Heap) (m : ResourceList) : gmap string Quantity :=
  match m with
  | None => ∅
  | Some l => mapAt h l
  end.

(** The first error a loop body returns, for loops whose body either
    returns an error or goes on. *)
Fixpoint firstError {A} (body : A → option Error) (l : list A) : option Error :=
  match l with
  | [] => None
  | x :: l' =>
      match body x with
      | Some e => Some e
      | None => firstError body l'
      end
  end.

(** ** pkg/resourcecontroller *)

Module resourcecontroller.

(** [strings.Join(s, ".")] for the three-element slice of
    [observerFuncKey]. *)
Definition observerFuncKey (groupBy ruleType name : string) : string :=
  groupBy +:+ "." +:+ ruleType +:+ "." +:+ name.

(** [map[api.ResourceControllerRuleType]api.ResourceList]. *)
Definition ResourceControllerRuleTypeToResourceList := gmap string ResourceList.

(** One round of either loop of [AllowedAndAllocated]. *)
Definition addGroup (byGroup : gmap string (gmap string ResourceList))
    (g : ResourceControllerGroup) : gmap string (gmap string ResourceList) :=
  let byGroup :=
    match byGroup !! GroupBy g with
    | Some _ => byGroup
    | None => <[GroupBy g := ∅]> byGroup
    end in
  <[GroupBy g := <[RuleType g := Resources g]> (default ∅ (byGroup !! GroupBy g))]> byGroup.

Definition AllowedAndAllocated (status : ResourceControllerStatus)
  : gmap string (gmap string ResourceList) * gmap string (gmap string ResourceList) :=
  let allowedGroupBy := foldl addGroup ∅ (elems (Allowed status)) in
  let allocatedGroupBy := foldl addGroup ∅ (elems (Allocated status)) in
  (allowedGroupBy, allocatedGroupBy).

(** [byGroup[groupBy][ruleType]]: reading an absent key of a Go map gives
    the zero value, here the nil map. *)
Definition rules (byGroup : gmap string (gmap string ResourceList))
    (groupBy ruleType : string) : ResourceList :=
  default None (default ∅ (byGroup !! groupBy) !! ruleType).

End resourcecontroller.

Import resourcecontroller.

(** ** The scope packages of plugin/pkg/admission/resourcelimits *)

(** [AdmissionFunc]: the client argument is not used by any built-in
    function and is left out. *)
Definition AdmissionFunc : Type :=
  Attributes → ResourceController → ResourceObservation → M (bool * option Error).

Module namespace.

Definition kindsToProcess : gmap string bool :=
  <["pods" := true]> (<["services" := true]> (<["replicationControllers" := true]> ∅)).

Definition kindToMaxKindResourceName : gmap string ResourceName :=
  <["pods" := "Pods"]> (<["services" := "Services"]>
    (<["replicationControllers" := "ReplicationControllers"]> ∅)).

Definition makeObservation (status : ResourceControllerStatus)
    (resourceName : ResourceName) (newQuantity : Quantity) : M unit :=
  let '(_, observedAllocatedByGroup) := AllowedAndAllocated status in
  let observedAllocatedGroupRules :=
    default ∅ (observedAllocatedByGroup !! ResourceControllerGroupByNamespace) in
  let observedAllocatedGroupRulesMax :=
    default None (observedAllocatedGroupRules !! ResourceControllerRuleTypeMax) in
  writeMap observedAllocatedGroupRulesMax resourceName newQuantity.

(** The error of lines 102, 136 and 153. *)
Definition waiting (a : Attributes) (name : string) : Error :=
  Forbidden (GetKind a) name WaitingForObservation.

(** The CREATE branch of [admissionFunc] is cut into its blocks, each a
    function of the local variables it reads: [memBlock] is lines 150 to
    166, [podsBlock] lines 118 to 168 and [kindBlock] lines 90 to 116.
    Each either returns from [admissionFunc] or goes on with the current
    [dirty]. *)
Definition memBlock (a : Attributes) (input : ResourceController)
    (observation : ResourceObservation) (name : string)
    (allocatedGroupRulesMax : ResourceList) (mem : option Quantity) (podMem : Z)
    (dirty : bool) : M (bool * option Error) :=
  match mem with
  | Some memLimit =>
      h ← getHeap;
      match readMap h allocatedGroupRulesMax "Memory" with
      | None => mret (dirty, Some (waiting a name))
      | Some memObservation =>
          if Value memLimit <=? add64 (Value memObservation) podMem then
            mret (dirty, Some (Forbidden (GetKind a) name
                     (LimitMemory memLimit (Namespace (RC_Meta input)))))
          else
            makeObservation (Obs_Status observation) "Memory"
              (NewQuantity (add64 (Value memObservation) podMem) DecimalSI);;
            mret (true, None)
      end
  | None => mret (dirty, None)
  end.

Definition podsBlock (a : Attributes) (input : ResourceController)
    (observation : ResourceObservation) (name : string)
    (allowedGroupRulesMax allocatedGroupRulesMax : ResourceList)
    (dirty : bool) : M (bool * option Error) :=
  if decide (GetKind a = "pods") then
    h ← getHeap;
    let cpu := readMap h allowedGroupRulesMax "CPU" in
    let mem := readMap h allowedGroupRulesMax "Memory" in
    match GetObject a with
    | PodObject pod =>
        if found cpu || found mem then
          let podCPU :=
            foldl (λ acc container, add64 acc (MilliValue (CPU container)))
                  0 (Spec_Containers pod) in
          let podMem :=
            foldl (λ acc container, add64 acc (Value (Memory container)))
                  0 (Spec_Containers pod) in
          match cpu with
          | Some cpuLimit =>
              h ← getHeap;
              match readMap h allocatedGroupRulesMax "CPU" with
              | None => mret (dirty, Some (waiting a name))
              | Some cpuObservation =>
                  if MilliValue cpuLimit <=? add64 (MilliValue cpuObservation) podCPU then
                    mret (dirty, Some (Forbidden (GetKind a) name
                             (LimitCPU cpuLimit (Namespace (RC_Meta input)))))
                  else
                    makeObservation (Obs_Status observation) "CPU"
                      (NewMilliQuantity (add64 (MilliValue cpuObservation) podCPU) DecimalSI);;
                    memBlock a input observation name allocatedGroupRulesMax mem podMem true
              end
          | None =>
              memBlock a input observation name allocatedGroupRulesMax mem podMem dirty
          end
        else mret (dirty, None)
    | _ => panic
    end
  else mret (dirty, None).

Definition kindBlock (a : Attributes) (input : ResourceController)
    (observation : ResourceObservation) (name : string)
    (allowedGroupRulesMax allocatedGroupRulesMax : ResourceList)
    (dirty : bool) : M (bool * option Error) :=
  match allowedGroupRulesMax with
  | Some _ =>
      let resourceName := default "" (kindToMaxKindResourceName !! GetKind a) in
      h ← getHeap;
      match readMap h allowedGroupRulesMax resourceName with
      | Some limit =>
          match readMap h allocatedGroupRulesMax resourceName with
          | None => mret (dirty, Some (waiting a name))
          | Some observed =>
              if Value limit <=? Value observed then
                mret (dirty, Some (Forbidden (GetKind a) name
                         (LimitedTo limit (GetKind a) (Namespace (RC_Meta input)))))
              else
                makeObservation (Obs_Status observation) resourceName
                  (NewQuantity (add64 (Value observed) 1) DecimalSI);;
                podsBlock a input observation name allowedGroupRulesMax
                  allocatedGroupRulesMax true
          end
      | None =>
          podsBlock a input observation name allowedGroupRulesMax
            allocatedGroupRulesMax dirty
      end
  | None =>
      podsBlock a input observation name allowedGroupRulesMax allocatedGroupRulesMax dirty
  end.

Definition admissionFunc : AdmissionFunc := λ a input observation,
  let groupBy := ResourceControllerGroupByNamespace in
  let dirty := false in
  if decide (GetOperation a = "DELETE") then mret (dirty, None) else
  match kindsToProcess !! GetKind a with
  | None => mret (dirty, None)
  | Some _ =>
  let '(allowedByGroup, allocatedByGroup) := AllowedAndAllocated (Status input) in
  match allowedByGroup !! groupBy with
  | None => mret (dirty, None)
  | Some allowedGroupRules =>
  let allocatedGroupRules : gmap string ResourceList :=
    default ∅ (allocatedByGroup !! groupBy) in
  let name := default "Unknown" (accessorName (GetObject a)) in
  if decide (GetOperation a = "CREATE") then
    let allowedGroupRulesMax : ResourceList :=
      default None (allowedGroupRules !! ResourceControllerRuleTypeMax) in
    let allocatedGroupRulesMax : ResourceList :=
      default None (allocatedGroupRules !! ResourceControllerRuleTypeMax) in
    kindBlock a input observation name allowedGroupRulesMax allocatedGroupRulesMax dirty
  else mret (dirty, None)
  end
  end.

End namespace.

Module pod.

(** The body of the two nested loops (lines 66 to 109): the error it
    returns, if any. *)
Definition checkRule (a : Attributes) (pod : Pod) (memoryUsage : Z)
    (memoryQuantity cpuQuantity : Quantity)
    (ruleType name : string) (quantity : Quantity) : option Error :=
  if decide (ruleType = ResourceControllerRuleTypeMax) then
    if decide (name = "Memory") then
      if Value quantity <? memoryUsage then
        Some (Forbidden (GetKind a) (Pod_Name pod) (PodMemoryAboveMax memoryQuantity quantity))
      else None
    else if decide (name = "CPU") then
      if MilliValue quantity <? MilliValue cpuQuantity then
        Some (Forbidden (GetKind a) (Pod_Name pod) (PodCPUAboveMax cpuQuantity quantity))
      else None
    else None
  else if decide (ruleType = ResourceControllerRuleTypeMin) then
    if decide (name = "Memory") then
      if memoryUsage <? Value quantity then
        Some (Forbidden (GetKind a) (Pod_Name pod) (PodMemoryBelowMin memoryQuantity quantity))
      else None
    else if decide (name = "CPU") then
      if MilliValue cpuQuantity <? MilliValue quantity then
        Some (Forbidden (GetKind a) (Pod_Name pod)
                (PodCPUBelowMin (MilliValue cpuQuantity) (MilliValue quantity)))
      else None
    else None
  else None.

Definition admissionFunc (o : RangeOrder) : AdmissionFunc := λ a input observation,
  let dirty := false in
  if decide (GetOperation a = "DELETE") then mret (dirty, None) else
  if decide (GetKind a ≠ "pods") then mret (dirty, None) else
  let '(allowedByGroup, _) := AllowedAndAllocated (Status input) in
  match allowedByGroup !! ResourceControllerGroupByPod with
  | None => mret (dirty, None)
  | Some groupRules =>
      match GetObject a with
      | PodObject pod =>
          let memoryUsage :=
            foldl (λ acc container, add64 acc (Value (Memory container)))
                  0 (Spec_Containers pod) in
          let cpuUsage :=
            foldl (λ acc container, add64 acc (MilliValue (CPU container)))
                  0 (Spec_Containers pod) in
          let memoryQuantity := NewQuantity memoryUsage BinarySI in
          let cpuQuantity := NewMilliQuantity cpuUsage DecimalSI in
          h ← getHeap;
          mret (dirty,
            firstError (λ '(ruleType, resources),
              firstError (λ '(name, quantity),
                checkRule a pod memoryUsage memoryQuantity cpuQuantity
                          ruleType name quantity)
                (range o (entries h resources)))
              (range o groupRules))
      | _ => panic
      end
  end.

End pod.

Module container.

(** The body of the three nested loops (lines 54 to 105). *)
Definition checkRule (a : Attributes) (pod : Pod)
    (ruleType name : string) (quantity : Quantity) (container : Container)
  : option Error :=
  if decide (ruleType = ResourceControllerRuleTypeMax) then
    if decide (name = "Memory") then
      if Value quantity <? Value (Memory container) then
        Some (Forbidden (GetKind a) (Pod_Name pod)
                (ContainerMemoryAboveMax (GetOperation a) (Container_Name container)
                   (Memory container) quantity))
      else None
    else if decide (name = "CPU") then
      if MilliValue quantity <? MilliValue (CPU container) then
        Some (Forbidden (GetKind a) (Pod_Name pod)
                (ContainerCPUAboveMax (GetOperation a) (Container_Name container)
                   (CPU container) quantity))
      else None
    else None
  else if decide (ruleType = ResourceControllerRuleTypeMin) then
    if decide (name = "CPU") then
      if MilliValue (CPU container) <? MilliValue quantity then
        Some (Forbidden (GetKind a) (Pod_Name pod)
                (ContainerCPUBelowMin (GetOperation a) (Container_Name container)
                   (Memory container) quantity))
      else None
    else if decide (name = "Memory") then
      if Value (Memory container) <? Value quantity then
        Some (Forbidden (GetKind a) (Pod_Name pod)
                (ContainerMemoryBelowMin (GetOperation a) (Container_Name container)
                   (Memory container) (Value quantity)))
      else None
    else None
  else None.

Definition admissionFunc (o : RangeOrder) : AdmissionFunc := λ a input observation,
  if decide (GetOperation a = "DELETE") then mret (false, None) else
  if decide (GetKind a ≠ "pods") then mret (false, None) else
  let '(allowedByGroup, _) := AllowedAndAllocated (Status input) in
  match allowedByGroup !! ResourceControllerGroupByContainer with
  | None => mret (false, None)
  | Some groupRules =>
      match GetObject a with
      | PodObject pod =>
          h ← getHeap;
          mret (false,
            firstError (λ '(ruleType, resources),
              firstError (λ '(name, quantity),
                firstError (checkRule a pod ruleType name quantity)
                  (Spec_Containers pod))
                (range o (entries h resources)))
              (range o groupRules))
      | _ => panic
      end
  end.

End container.

Module replicationcontroller.

(** The body of the two nested loops (lines 55 to 66). *)
Definition checkRule (a : Attributes) (replicationController : ReplicationController)
    (replicas : Z) (ruleType name : string) (quantity : Quantity) : option Error :=
  if decide (ruleType = ResourceControllerRuleTypeMax) then
    if decide (name = "Replicas") then
      if Value quantity <? replicas then
        Some (Forbidden (GetKind a) (ReplicationController_Name replicationController)
                (ReplicasAboveMax replicas quantity))
      else None
    else None
  else None.

Definition admissionFunc (o : RangeOrder) : AdmissionFunc := λ a input observation,
  if decide (GetOperation a = "DELETE") then mret (false, None) else
  if decide (GetKind a ≠ "replicationControllers") then mret (false, None) else
  let '(allowedByGroup, _) := AllowedAndAllocated (Status input) in
  match allowedByGroup !! ResourceControllerGroupByReplicationController with
  | None => mret (false, None)
  | Some groupRules =>
      match GetObject a with
      | ReplicationControllerObject replicationController =>
          let replicas := wrap64 (Spec_Replicas replicationController) in
          h ← getHeap;
          mret (false,
            firstError (λ '(ruleType, resources),
              firstError (λ '(name, quantity),
                checkRule a replicationController replicas ruleType name quantity)
                (range o (entries h resources)))
              (range o groupRules))
      | _ => panic
      end
  end.

End replicationcontroller.

(** ** pkg/client *)

Module client.

(** [client.Interface], as far as the engine calls it.  A listing
    returns a pointer, which may be nil, and an error; the answer of
    [ResourceObservations(ns).Create] may depend on the content sent. *)
Record Interface := {
  ResourceControllers_List : string → option ResourceControllerList * option Error;
  ResourceObservations_Create : string → ResourceObservation → Heap → option Error;
  Pods_List : string → PodList * option Error;
  Services_List : string → ServiceList * option Error;
  ReplicationControllers_List : string → ReplicationControllerList * option Error }.

(** [ResourceObservations(ns).Create(&obs)]: the call is recorded with
    the heap the observation is read from. *)
Definition Create (c : Interface) (ns : string) (obs : ResourceObservation)
  : M (option Error) :=
  λ w, Returns (ResourceObservations_Create c ns obs (heap w))
         {| heap := heap w;
            created := created w ++ [(obs, heap w)];
            logged := logged w |}.

(** Modelled from the spec: the REST request of [pkg/client], which is
    not part of the sources at hand.  A request either fails, and [Into]
    returns the error and leaves its argument as it was, or it carries a
    body that [Into] decodes into its argument. *)
Record RESTClient := {
  doList : string → Error + list ResourceController;
  doCreate : string → ResourceObservation → Heap → option Error;
  doPods : string → PodList * option Error;
  doServices : string → ServiceList * option Error;
  doReplicationControllers : string → ReplicationControllerList * option Error }.

Definition Into (response : Error + list ResourceController)
    (result : ResourceControllerList) : ResourceControllerList * option Error :=
  match response with
  | inl err => (result, Some err)
  | inr items => ({| Items := items |}, None)
  end.

(** [(c *resourceControllers) List]: the result is allocated before the
    request is made. *)
Definition resourceControllers_List (r : RESTClient) (ns : string)
  : option ResourceControllerList * option Error :=
  let result := {| Items := [] |} in
  let '(result, err) := Into (doList r ns) result in
  (Some result, err).

(** [*client.Client] as a [client.Interface]. *)
Definition Client (r : RESTClient) : Interface :=
  {| ResourceControllers_List := resourceControllers_List r;
     ResourceObservations_Create := doCreate r;
     Pods_List := doPods r;
     Services_List := doServices r;
     ReplicationControllers_List := doReplicationControllers r |}.

End client.

Import client.

(** ** plugin/pkg/admission/resourcelimits: the registry and Admit *)

(** A loop whose body may return from the enclosing function with an
    error: the rounds run in order until one returns. *)
Fixpoint forEach {A} (body : A → M (option Error)) (l : list A) : M (option Error) :=
  match l with
  | [] => mret None
  | x :: l' =>
      r ← body x;
      match r with
      | Some e => mret (Some e)
      | None => forEach body l'
      end
  end.

(** [make([]T, n, n)] and [copy(dst, src)]. *)
Definition make (n : nat) : list ResourceControllerGroup := replicate n zeroGroup.

Definition copy {A} (dst src : list A) : list A :=
  let n := Nat.min (length dst) (length src) in
  take n src ++ drop n dst.

Module resourcelimits.

(** [plugins], the registry; [None] stands for the process stopped by
    [glog.Fatalf]. *)
Definition RegisterAdmissionFunc (name : string) (admissionFunc : AdmissionFunc)
    (plugins : gmap string AdmissionFunc) : option (gmap string AdmissionFunc) :=
  match plugins !! name with
  | Some _ => None
  | None => Some (<[name := admissionFunc]> plugins)
  end.


Record limits := {
  client : Interface;
  admissionFuncs : list AdmissionFunc }.

(** Lines 70 to 77 of [Admit]: the registered functions are invoked in
    the order of the slice; the first error returns from [Admit]. *)
Fixpoint invoke (a : Attributes) (controller : ResourceController)
    (resourceObservation : ResourceObservation)
    (funcs : list AdmissionFunc) (dirty : bool) : M (bool * option Error) :=
  match funcs with
  | [] => mret (dirty, None)
  | admissionFunc :: funcs' =>
      '(funcDirty, err) ← admissionFunc a controller resourceObservation;
      match err with
      | Some e => mret (dirty, Some e)
      | None => invoke a controller resourceObservation funcs' (dirty || funcDirty)
      end
  end.

(** Lines 56 to 67 of [Admit]: the observation built for a controller. *)
Definition snapshot (controller : ResourceController) : ResourceObservation :=
  let n := length (elems (Allowed (Status controller))) in
  {| Obs_Meta := {| Name := Name (RC_Meta controller);
                    Namespace := Namespace (RC_Meta controller);
                    ResourceVersion := ResourceVersion (RC_Meta controller) |};
     Obs_Status :=
       {| Allowed := Some (copy (make n) (elems (Allowed (Status controller))));
          Allocated := Some (copy (make n) (elems (Allocated (Status controller)))) |} |}.

(** The body of the loop over the controllers (lines 54 to 85). *)
Definition admitController (l : limits) (a : Attributes) (name : string)
    (controller : ResourceController) : M (option Error) :=
  let resourceObservation := snapshot controller in
  '(dirty, err) ← invoke a controller resourceObservation (admissionFuncs l) false;
  match err with
  | Some e => mret (Some e)
  | None =>
      if dirty : bool then
        err ← Create (client l) (Namespace (Obs_Meta resourceObservation)) resourceObservation;
        match err with
        | Some _ =>
            mret (Some (Forbidden (GetKind a) name
                          (CannotEnforce (GetOperation a) (GetKind a))))
        | None => mret None
        end
      else mret None
  end.

Definition Admit (l : limits) (a : Attributes) : M (option Error) :=
  let name :=
    match GetObject a with
    | NilObject => "Unknown"
    | obj => default "" (accessorName obj)
    end in
  let '(list, err) := ResourceControllers_List (client l) (GetNamespace a) in
  match err with
  | Some _ =>
      mret (Some (Forbidden (GetKind a) name
                    (CannotEnforce (GetOperation a) (GetKind a))))
  | None =>
      match list with
      | None => panic
      | Some list => forEach (admitController l a name) (Items list)
      end
  end.

End resourcelimits.

Import resourcelimits.

(** ** pkg/resourcecontroller: observers *)

(** [for i, x := range l]: a loop over a slice that carries a value. *)
Fixpoint rangeFrom {A B} (i : nat) (body : B → nat → A → B) (acc : B) (l : list A) : B :=
  match l with
  | [] => acc
  | x :: l' => rangeFrom (S i) body (body acc i x) l'
  end.

Definition forRange {A B} (body : B → nat → A → B) (acc : B) (l : list A) : B :=
  rangeFrom 0 body acc l.

(** [cache.Store] as the observers use it: the three keys ["pods"],
    ["services"] and ["replicationControllers"], each holding a listing
    once it has been added. *)
Record Store := {
  store_pods : option PodList;
  store_services : option ServiceList;
  store_replicationControllers : option ReplicationControllerList }.

Definition NewStore : Store :=
  {| store_pods := None; store_services := None; store_replicationControllers := None |}.

(** [ObserverFunc]: the store is updated in place, so the function returns
    it together with the quantity pointer and the error. *)
Definition ObserverFunc : Type :=
  Store → string → Store * (option Quantity * option Error).

Record ObserverFuncBinding := {
  Binding_GroupBy : string;
  Binding_RuleType : string;
  Binding_ResourceName : ResourceName;
  Func : ObserverFunc }.

(** The [Observer] interface. *)
Record Observer := { ObserverFuncBindings : list ObserverFuncBinding }.

(** ** plugin/pkg/admission/resourcelimits: the built-in observer *)

Module observer.

Section Observer.

(** The receiver [o *observer]: its client. *)
Variable c : Interface.

Definition pods (store : Store) (namespace : string)
  : Store * (PodList * option Error) :=
  match store_pods store with
  | Some items => (store, (items, None))
  | None =>
      let '(items, err) := Pods_List c namespace in
      ({| store_pods := Some items;
          store_services := store_services store;
          store_replicationControllers := store_replicationControllers store |},
       (items, err))
  end.

Definition services (store : Store) (namespace : string)
  : Store * (ServiceList * option Error) :=
  match store_services store with
  | Some items => (store, (items, None))
  | None =>
      let '(items, err) := Services_List c namespace in
      ({| store_pods := store_pods store;
          store_services := Some items;
          store_replicationControllers := store_replicationControllers store |},
       (items, err))
  end.

Definition replicationControllers (store : Store) (namespace : string)
  : Store * (ReplicationControllerList * option Error) :=
  match store_replicationControllers store with
  | Some items => (store, (items, None))
  | None =>
      let '(items, err) := ReplicationControllers_List c namespace in
      ({| store_pods := store_pods store;
          store_services := store_services store;
          store_replicationControllers := Some items |},
       (items, err))
  end.

(** The shape shared by the observer functions over pods: list, return
    the error if there is one, else the quantity [f] computes. *)
Definition overPods (f : list Pod → Quantity) : ObserverFunc :=
  λ store namespace,
    let '(store, (items, err)) := pods store namespace in
    match err with
    | Some e => (store, (None, Some e))
    | None => (store, (Some (f (Pod_Items items)), None))
    end.

Definition overServices (f : list Service → Quantity) : ObserverFunc :=
  λ store namespace,
    let '(store, (items, err)) := services store namespace in
    match err with
    | Some e => (store, (None, Some e))
    | None => (store, (Some (f (Service_Items items)), None))
    end.

Definition overReplicationControllers (f : list ReplicationController → Quantity)
  : ObserverFunc :=
  λ store namespace,
    let '(store, (items, err)) := replicationControllers store namespace in
    match err with
    | Some e => (store, (None, Some e))
    | None => (store, (Some (f (ReplicationController_Items items)), None))
    end.

End Observer.

(** *** The loops of the observer functions *)

(** Namespace scope. *)
Definition namespaceCPU (items : list Pod) : Quantity :=
  let val :=
    foldl (λ val item,
             foldl (λ val container, add64 val (MilliValue (CPU container)))
                   val (Spec_Containers item))
          0 items in
  NewMilliQuantity val DecimalSI.

Definition namespaceMemory (items : list Pod) : Quantity :=
  let val :=
    foldl (λ val item,
             foldl (λ val container, add64 val (Value (Memory container)))
                   val (Spec_Containers item))
          0 items in
  NewQuantity val DecimalSI.

Definition count {A} (items : list A) : Quantity :=
  NewQuantity (Z.of_nat (length items)) DecimalSI.

(** Container scope. *)
Definition containerMaxMemory (items : list Pod) : Quantity :=
  let val :=
    foldl (λ val item,
             foldl (λ val container,
                      if val <? Value (Memory container)
                      then Value (Memory container) else val)
                   val (Spec_Containers item))
          0 items in
  NewQuantity val DecimalSI.

Definition containerMinMemory (items : list Pod) : Quantity :=
  let val :=
    forRange (λ val i item,
                forRange (λ val j container,
                            if (Value (Memory container) <? val)
                               || (Nat.eqb i 0 && Nat.eqb j 0)
                            then Value (Memory container) else val)
                         val (Spec_Containers item))
             0 items in
  NewQuantity val DecimalSI.

Definition containerMaxCPU (items : list Pod) : Quantity :=
  let val :=
    foldl (λ val item,
             foldl (λ val container,
                      if val <? MilliValue (CPU container)
                      then MilliValue (CPU container) else val)
                   val (Spec_Containers item))
          0 items in
  NewMilliQuantity val DecimalSI.

Definition containerMinCPU (items : list Pod) : Quantity :=
  let val :=
    forRange (λ val i item,
                forRange (λ val j container,
                            if (MilliValue (CPU container) <? val)
                               || (Nat.eqb i 0 && Nat.eqb j 0)
                            then MilliValue (CPU container) else val)
                         val (Spec_Containers item))
             0 items in
  NewMilliQuantity val DecimalSI.

(** Pod scope. *)
Definition podCPU (item : Pod) : Z :=
  foldl (λ internalVal container, add64 internalVal (MilliValue (CPU container)))
        0 (Spec_Containers item).

Definition podMemory (item : Pod) : Z :=
  foldl (λ internalVal container, add64 internalVal (Value (Memory container)))
        0 (Spec_Containers item).

Definition podMaxCPU (items : list Pod) : Quantity :=
  let val :=
    foldl (λ val item,
             let internalVal := podCPU item in
             if val <? internalVal then internalVal else val)
          0 items in
  NewMilliQuantity val DecimalSI.

Definition podMinCPU (items : list Pod) : Quantity :=
  let val :=
    forRange (λ val index item,
                let internalVal := podCPU item in
                if Nat.eqb index 0 || (internalVal <? val) then internalVal else val)
             0 items in
  NewMilliQuantity val DecimalSI.

Definition podMaxMemory (items : list Pod) : Quantity :=
  let val :=
    foldl (λ val item,
             let internalVal := podMemory item in
             if val <? internalVal then internalVal else val)
          0 items in
  NewQuantity val DecimalSI.

Definition podMinMemory (items : list Pod) : Quantity :=
  let val :=
    forRange (λ val index item,
                let internalVal := podMemory item in
                if Nat.eqb index 0 || (internalVal <? val) then internalVal else val)
             0 items in
  NewQuantity val DecimalSI.

(** Replication-controller scope. *)
Definition maxReplicas (items : list ReplicationController) : Quantity :=
  let val :=
    foldl (λ val item,
             let internalVal := wrap64 (Spec_Replicas item) in
             if val <? internalVal then internalVal else val)
          0 items in
  NewQuantity val DecimalSI.

(** *** The bindings *)

Definition binding (groupBy ruleType : string) (name : ResourceName) (f : ObserverFunc)
  : ObserverFuncBinding :=
  {| Binding_GroupBy := groupBy; Binding_RuleType := ruleType;
     Binding_ResourceName := name; Func := f |}.

Definition namespaceObserverFuncBindings (c : Interface) : list ObserverFuncBinding :=
  let groupBy := ResourceControllerGroupByNamespace in
  [ binding groupBy ResourceControllerRuleTypeMax "CPU" (overPods c namespaceCPU);
    binding groupBy ResourceControllerRuleTypeMax "Memory" (overPods c namespaceMemory);
    binding groupBy ResourceControllerRuleTypeMax "Pods" (overPods c count);
    binding groupBy ResourceControllerRuleTypeMax "Services" (overServices c count);
    binding groupBy ResourceControllerRuleTypeMax "ReplicationControllers"
      (overReplicationControllers c count) ].

Definition containerObserverFuncBindings (c : Interface) : list ObserverFuncBinding :=
  let groupBy := ResourceControllerGroupByContainer in
  [ binding groupBy ResourceControllerRuleTypeMax "Memory" (overPods c containerMaxMemory);
    binding groupBy ResourceControllerRuleTypeMin "Memory" (overPods c containerMinMemory);
    binding groupBy ResourceControllerRuleTypeMax "CPU" (overPods c containerMaxCPU);
    binding groupBy ResourceControllerRuleTypeMin "CPU" (overPods c containerMinCPU) ].

Definition podObserverFuncBindings (c : Interface) : list ObserverFuncBinding :=
  let groupBy := ResourceControllerGroupByPod in
  [ binding groupBy ResourceControllerRuleTypeMax "CPU" (overPods c podMaxCPU);
    binding groupBy ResourceControllerRuleTypeMin "CPU" (overPods c podMinCPU);
    binding groupBy ResourceControllerRuleTypeMax "Memory" (overPods c podMaxMemory);
    binding groupBy ResourceControllerRuleTypeMin "Memory" (overPods c podMinMemory) ].

Definition replicationControllerObserverFuncBindings (c : Interface)
  : list ObserverFuncBinding :=
  [ binding ResourceControllerGroupByReplicationController ResourceControllerRuleTypeMax
      "Replicas" (overReplicationControllers c maxReplicas) ].

(** [(o *observer) ObserverFuncBindings]. *)
Definition observer (c : Interface) : Observer :=
  {| ObserverFuncBindings :=
       (namespaceObserverFuncBindings c ++ containerObserverFuncBindings c
        ++ podObserverFuncBindings c ++ replicationControllerObserverFuncBindings c)%list |}.

End observer.

(** ** pkg/resourcecontroller: the reconciler *)

Module manager.

Record ResourceManager := {
  kubeClient : Interface;
  syncHandler : ResourceController → M (option Error);
  observerFuncs : gmap string ObserverFunc }.

(** The loops of [NewResourceManager] (lines 48 to 54): a later binding
    of a key replaces an earlier one. *)
Definition bindAll (observers : list Observer) : gmap string ObserverFunc :=
  foldl (λ observerFuncs observer,
           foldl (λ observerFuncs binding,
                    <[observerFuncKey (Binding_GroupBy binding) (Binding_RuleType binding)
                        (Binding_ResourceName binding) := Func binding]> observerFuncs)
                 observerFuncs (ObserverFuncBindings observer))
        ∅ observers.

Section Sync.

Variable o : RangeOrder.
Variable kubeClient : Interface.
Variable observerFuncs : gmap string ObserverFunc.

(** The loop over the names of one group (lines 132 to 149).  It
    carries the store and [dirty]; an error of an observer function
    returns from [syncResourceController]. *)
Fixpoint observeNames (controller : ResourceController)
    (prevAllocatedStatus : gmap string (gmap string ResourceList))
    (group latestObservation : ResourceControllerGroup)
    (names : list string) (store : Store) (dirty : bool)
  : M (bool * option Error) :=
  match names with
  | [] => mret (dirty, None)
  | name :: names' =>
      match observerFuncs !! observerFuncKey (GroupBy group) (RuleType group) name with
      | Some observerFunc =>
          let '(store, (quantity, err)) :=
            observerFunc store (Namespace (RC_Meta controller)) in
          match err with
          | Some e => mret (dirty, Some e)
          | None =>
              match quantity with
              | None => panic
              | Some quantity =>
                  writeMap (Resources latestObservation) name quantity;;
                  h ← getHeap;
                  let prevQuantity :=
                    default zero
                      (readMap h (rules prevAllocatedStatus (GroupBy group) (RuleType group))
                         name) in
                  let dirty :=
                    dirty || negb (Value quantity =? Value prevQuantity) in
                  observeNames controller prevAllocatedStatus group latestObservation
                    names' store dirty
              end
          end
      | None =>
          observeNames controller prevAllocatedStatus group latestObservation
            names' store dirty
      end
  end.

(** The loop over the groups (lines 121 to 152), from index [index]
    on; it carries the observation and [dirty]. *)
Fixpoint observeGroups (controller : ResourceController)
    (prevAllocatedStatus : gmap string (gmap string ResourceList))
    (index : nat) (groups : list ResourceControllerGroup)
    (allocated : list ResourceControllerGroup) (dirty : bool)
  : M (list ResourceControllerGroup * bool * option Error) :=
  match groups with
  | [] => mret (allocated, dirty, None)
  | group :: groups' =>
      let store := NewStore in
      h ← getHeap;
      let '(l, h') := newMap h in
      putHeap h';;
      let latestObservation :=
        {| GroupBy := GroupBy group; RuleType := RuleType group; Resources := Some l |} in
      '(dirty, err) ← observeNames controller prevAllocatedStatus group latestObservation
                        (range o (entries h' (Resources group))).*1 store dirty;
      match err with
      | Some e => mret (allocated, dirty, Some e)
      | None =>
          observeGroups controller prevAllocatedStatus (S index) groups'
            (<[index := latestObservation]> allocated) dirty
      end
  end.

(** Lines 103 to 152 of [syncResourceController]: the observation, the
    value of [dirty], and the error that returns from the function, if
    any. *)
Definition observe (controller : ResourceController)
  : M (ResourceObservation * bool * option Error) :=
  let n := length (elems (Spec_Allowed (Spec controller))) in
  let allowed := copy (make n) (elems (Spec_Allowed (Spec controller))) in
  let '(_, prevAllocatedStatus) := AllowedAndAllocated (Status controller) in
  let dirty :=
    negb (found (Allowed (Status controller)))
    || negb (found (Allocated (Status controller))) in
  '(allocated, dirty, err) ←
    observeGroups controller prevAllocatedStatus 0 allowed (make n) dirty;
  mret ({| Obs_Meta := {| Name := Name (RC_Meta controller);
                          Namespace := Namespace (RC_Meta controller);
                          ResourceVersion := ResourceVersion (RC_Meta controller) |};
           Obs_Status := {| Allowed := Some allowed; Allocated := Some allocated |} |},
        dirty, err).

Definition syncResourceController (controller : ResourceController) : M (option Error) :=
  '(resourceObservation, dirty, err) ← observe controller;
  match err with
  | Some e => mret (Some e)
  | None =>
      if dirty : bool then
        Create kubeClient (Namespace (Obs_Meta resourceObservation)) resourceObservation
      else mret None
  end.

End Sync.

Definition NewResourceManager (o : RangeOrder) (kubeClient : Interface)
    (observers : list Observer) : ResourceManager :=
  let observerFuncs := bindAll observers in
  {| kubeClient := kubeClient;
     observerFuncs := observerFuncs;
     syncHandler := syncResourceController o kubeClient observerFuncs |}.

(** One round of the loop of [synchronize] (lines 82 to 89).  The rounds
    are goroutines that [synchronize] waits for; the model runs them one
    after the other, in the order of the listing. *)
Definition syncOne (rm : ResourceManager) (controller : ResourceController) : M unit :=
  err ← syncHandler rm controller;
  match err with
  | Some e => glogErrorf (ErrorSynchronizing e)
  | None => mret tt
  end.

Definition synchronize (rm : ResourceManager) : M unit :=
  let '(list, err) := ResourceControllers_List (kubeClient rm) NamespaceAll in
  match err with
  | Some e => glogErrorf (SynchronizationError e)
  | None => mret tt
  end;;
  match list with
  | None => panic
  | Some list =>
      let resourceControllers := Items list in
      foldr (λ controller rest, syncOne rm controller;; rest) (mret tt) resourceControllers
  end.

End manager.

(** ** Derived notions used by the statements *)

(** The four built-in admission functions, as the [init] functions of
    the scope packages register them. *)
Definition builtins (o : RangeOrder) : list (string * AdmissionFunc) :=
  [ ("ResourceLimitsNamespace", namespace.admissionFunc);
    ("ResourceLimitsPod", pod.admissionFunc o);
    ("ResourceLimitsContainer", container.admissionFunc o);
    ("ResourceLimitsReplicationController", replicationcontroller.admissionFunc o) ].

(** A sequence of registrations at start-up, from the empty registry. *)
Definition registerAll (regs : list (string * AdmissionFunc))
  : option (gmap string AdmissionFunc) :=
  foldl (λ plugins '(name, admissionFunc),
           plugins ≫= RegisterAdmissionFunc name admissionFunc)
        (Some ∅) regs.


(** What a call returns, and the world it leaves, when it does not
    panic. *)
Definition result {A} (r : Outcome A) : option A :=
  match r with
  | Returns a _ => Some a
  | Panics => None
  end.

Definition after {A} (r : Outcome A) : option World :=
  match r with
  | Returns _ w => Some w
  | Panics => None
  end.

(** The rule [status.X[groupBy][ruleType][name]] of a list of groups, read
    through the projection of [AllowedAndAllocated]. *)
Definition allowedRule (h : Heap) (status : ResourceControllerStatus)
    (groupBy ruleType name : string) : option Quantity :=
  readMap h (rules (AllowedAndAllocated status).1 groupBy ruleType) name.

Definition allocatedRule (h : Heap) (status : ResourceControllerStatus)
    (groupBy ruleType name : string) : option Quantity :=
  readMap h (rules (AllowedAndAllocated status).2 groupBy ruleType) name.

(** The minimum the spec asks of a Min evaluator: the first element
    seeds it, a strictly smaller one replaces it, and no element at all
    gives 0. *)
Definition minimum (l : list Z) : Z :=
  match l with
  | [] => 0
  | x :: l' => foldl Z.min x l'
  end.

(** The containers a listing of pods holds, in the order the loops meet
    them. *)
Definition containersOf (items : list Pod) : list Container :=
  items ≫= Spec_Containers.

(** The map [makeObservation] writes into: the (Namespace, Max) group of
    the allocated groups of the status it is given. *)
Definition target (status : ResourceControllerStatus) : ResourceList :=
  rules (AllowedAndAllocated status).2
        ResourceControllerGroupByNamespace ResourceControllerRuleTypeMax.


(** [podCPU] and [podMem] of lines 126 to 131: what a pod asks for. *)
Definition podUsageCPU (pod : Pod) : Z :=
  foldl (λ acc container, add64 acc (MilliValue (CPU container))) 0 (Spec_Containers pod).

Definition podUsageMemory (pod : Pod) : Z :=
  foldl (λ acc container, add64 acc (Value (Memory container))) 0 (Spec_Containers pod).




(** A computation that hands nothing to the store and logs nothing. *)
Definition quiet {A} (m : M A) : Prop :=
  ∀ w a w', m w = Returns a w' → created w' = created w ∧ logged w' = logged w.



(** ** Sample objects *)

Module sample.

Definition group (groupBy ruleType : string) (l : loc) : ResourceControllerGroup :=
  {| GroupBy := groupBy; RuleType := ruleType; Resources := Some l |}.

Definition meta : ObjectMeta :=
  {| Name := "quota"; Namespace := "ns"; ResourceVersion := "7" |}.

(** A controller whose limits are the map at location 1 and whose
    allocation is the map at location 2. *)
Definition controller (groupBy ruleType : string) : ResourceController :=
  {| RC_Meta := meta;
     Spec := {| Spec_Allowed := Some [group groupBy ruleType 1%positive] |};
     Status := {| Allowed := Some [group groupBy ruleType 1%positive];
                  Allocated := Some [group groupBy ruleType 2%positive] |} |}.

Definition namespaceMax : ResourceController := controller "Namespace" "Max".

Definition world (allowed allocated : list (string * Quantity)) : World :=
  {| heap := <[1%positive := list_to_map allowed]>
               (<[2%positive := list_to_map allocated]> ∅);
     created := [];
     logged := [] |}.

Definition container (cpu mem : Z) : Container :=
  {| Container_Name := "c";
     CPU := NewMilliQuantity cpu DecimalSI;
     Memory := NewQuantity mem BinarySI |}.

Definition pod (containers : list Container) : Pod :=
  {| Pod_Name := "p"; Spec_Containers := containers |}.

Definition attributes (op kind : string) (obj : Object) : Attributes :=
  {| GetNamespace := "ns"; GetKind := kind; GetOperation := op; GetObject := obj |}.

Definition createPod (containers : list Container) : Attributes :=
  attributes "CREATE" "pods" (PodObject (pod containers)).

(** A store holding the given controllers and pods, which accepts every
    observation. *)
Definition rest (controllers : list ResourceController) (pods : list Pod) : RESTClient :=
  {| doList := λ _, inr controllers;
     doCreate := λ _ _ _, None;
     doPods := λ _, ({| Pod_Items := pods |}, None);
     doServices := λ _, ({| Service_Items := [] |}, None);
     doReplicationControllers := λ _, ({| ReplicationController_Items := [] |}, None) |}.


Definition plugin (r : RESTClient) (funcs : list AdmissionFunc) : limits :=
  {| client := Client r; admissionFuncs := funcs |}.



(** A listing whose first pod has no container. *)
Definition firstPodEmpty : list Pod := [pod []; pod [container 7 5]].

(** The namespace of the C3 scenario: 100m of CPU recorded as allocated,
    101m requested by the one pod of the listing. *)
Definition cpuWorld : World :=
  world [("CPU", NewQuantity 2 DecimalSI)] [("CPU", NewMilliQuantity 100 DecimalSI)].

Definition cpuStore : RESTClient := rest [namespaceMax] [pod [container 101 0]].

(** Scenario 1 of the spec: three pods allowed, two allocated. *)
Definition podsWorld : World :=
  world [("Pods", NewQuantity 3 DecimalSI)] [("Pods", NewQuantity 2 DecimalSI)].


(** Scenario 2 of the spec: three pods allowed, three allocated. *)
Definition podsFullWorld : World :=
  world [("Pods", NewQuantity 3 DecimalSI)] [("Pods", NewQuantity 3 DecimalSI)].





(** A store with one pod, whose controller limits pods and a resource
    without observer. *)
Definition onePodStore : RESTClient := rest [namespaceMax] [pod []].

(** The four built-in functions, the namespace-scope one second. *)
Definition allFour : limits :=
  plugin (rest [namespaceMax] [])
         ([pod.admissionFunc keyOrder] ++ namespace.admissionFunc
            :: [container.admissionFunc keyOrder;
                replicationcontroller.admissionFunc keyOrder]).

End sample.

(** ** Further notions used by the statements *)

(** The last group of a list with the given scope and rule type. *)
Definition lastGroup (groups : list ResourceControllerGroup) (groupBy ruleType : string)
  : option ResourceControllerGroup :=
  last (filter (λ g, GroupBy g = groupBy ∧ RuleType g = ruleType) groups).

(** The key under which [NewResourceManager] files a binding. *)
Definition bindingKey (binding : ObserverFuncBinding) : string :=
  observerFuncKey (Binding_GroupBy binding) (Binding_RuleType binding)
    (Binding_ResourceName binding).

(** The bindings of a list of observers, in the order the loops of
    [NewResourceManager] meet them. *)
Definition bindingsOf (observers : list Observer) : list ObserverFuncBinding :=
  observers ≫= ObserverFuncBindings.

(** A string without a dot (the character of code 46). *)
Fixpoint noDot (s : string) : bool :=
  match s with
  | EmptyString => true
  | String c s' => negb (Ascii.eqb c (Ascii.ascii_of_nat 46)) && noDot s'
  end.

(** The sum of a list of integers, and the greatest of 0 and its
    elements. *)
Definition total (l : list Z) : Z := foldr Z.add 0 l.

Definition greatest (l : list Z) : Z := foldr Z.max 0 l.

(** The name [Admit] puts into its errors (lines 44 to 47 of
    admission.go). *)
Definition requestName (a : Attributes) : string :=
  match GetObject a with
  | NilObject => "Unknown"
  | obj => default "" (accessorName obj)
  end.

(** Every shared map of [h] is still in [h'], with the content it had. *)
Definition preserved (h h' : Heap) : Prop :=
  ∀ l, is_Some (h !! l) → h' !! l = h !! l.

(** The name, namespace and resource version of a controller, as both
    [Admit] and [syncResourceController] copy them into an observation. *)
Definition metaOf (controller : ResourceController) : ObjectMeta :=
  {| Name := Name (RC_Meta controller);
     Namespace := Namespace (RC_Meta controller);
     ResourceVersion := ResourceVersion (RC_Meta controller) |}.

(** The loops of the container-scope Min evaluators set the running
    minimum at the indices (0, 0) only: the listing seeds it when its first
    pod has a container. *)
Definition seeded (items : list Pod) : bool :=
  match items with
  | item :: _ =>
      match Spec_Containers item with
      | [] => false
      | _ :: _ => true
      end
  | [] => false
  end.

(** ** pkg/resourcecontroller: the registry of observers *)

(** [Factory]: from a client, an observer or an error.  (A factory that
    returns a nil observer together with a nil error is not modelled.) *)
Definition Factory : Type := Interface → Error + Observer.

(** [RegisterObserver] on the registry [plugins]; [None] stands for the
    process stopped by [glog.Fatalf]. *)
Definition RegisterObserver (name : string) (factory : Factory)
    (plugins : gmap string Factory) : option (gmap string Factory) :=
  match plugins !! name with
  | Some _ => None
  | None => Some (<[name := factory]> plugins)
  end.

(** [InitObservers]: the factories are called in the order in which
    [range] visits the registry; the first that fails stops the process. *)
Definition InitObservers (o : RangeOrder) (client : Interface)
    (plugins : gmap string Factory) : option (list Observer) :=
  foldl (λ (observers : option (list Observer)) '(_, factory),
           observers ← observers;
           match factory client with
           | inl _ => None
           | inr observer => Some (observers ++ [observer])%list
           end)
        (Some []) (range o plugins).

(** Another admissible order: that of the keys, backwards. *)
Definition reverseKeyOrder : RangeOrder :=
  {| range := λ A m, reverse (map_to_list m) |}.

(** An observer plug-in of its own, with one binding that the built-in
    observer does not have, and a registry holding it next to the built-in
    one. *)
Definition volumesObserver (c : Interface) : Observer :=
  {| ObserverFuncBindings :=
       [ observer.binding ResourceControllerGroupByNamespace ResourceControllerRuleTypeMax
           "Volumes" (observer.overPods c observer.count) ] |}.

Definition twoObservers : gmap string Factory :=
  <["ResourceLimits" := λ c, inr (observer.observer c)]>
    (<["Volumes" := λ c, inr (volumesObserver c)]> ∅).

(** The map of a rule list lives in the heap; the nil map has no
    location. *)
Definition allocatedIn (h : Heap) (m : ResourceList) : Prop :=
  match m with
  | Some l => is_Some (h !! l)
  | None => True
  end.

(** The maps of the groups of the controller's Spec.Allowed and
    Status.Allocated live in the heap. *)
Definition wellFormed (h : Heap) (controller : ResourceController) : Prop :=
  (∀ g, g ∈ elems (Spec_Allowed (Spec controller)) → allocatedIn h (Resources g))
  ∧ (∀ g, g ∈ elems (Allocated (Status controller)) → allocatedIn h (Resources g)).

(** Observer functions that settle: on the stores [inv] holds for, the
    function found under a key returns no error and a quantity whose value
    is [val] of that key, and leaves a store [inv] holds for. *)
Definition steady (observerFuncs : gmap string ObserverFunc) (namespace : string)
    (inv : Store → Prop) (val : string → Z) : Prop :=
  ∀ key f store,
    observerFuncs !! key = Some f →
    inv store →
    ∃ store' q,
      f store namespace = (store', (Some q, None)) ∧ inv store' ∧ Value q = val key.

(** A store whose cached listings, if any, are those of the client for
    the namespace. *)
Definition cachedFrom (c : Interface) (namespace : string) (store : Store) : Prop :=
  (∀ items, store_pods store = Some items → items = (Pods_List c namespace).1)
  ∧ (∀ items, store_services store = Some items → items = (Services_List c namespace).1)
  ∧ (∀ items, store_replicationControllers store = Some items →
              items = (ReplicationControllers_List c namespace).1).

(** The value the function found under a key returns on the empty store
    (0 without a function or a quantity). *)
Definition observedValue (observerFuncs : gmap string ObserverFunc) (namespace : string)
    (key : string) : Z :=
  match observerFuncs !! key with
  | Some f => Value (default zero (f NewStore namespace).2.1)
  | None => 0
  end.

(** * Theorems *)

(** ** Basic facts *)

Lemma wrap64_id (z : Z) : int64_range z → wrap64 z = z.
Proof.
  unfold int64_range, wrap64. intros H.
  rewrite Z.mod_small; lia.
Qed.

Lemma wrap64_range (z : Z) : int64_range (wrap64 z).
Proof.
  unfold int64_range, wrap64.
  pose proof (Z.mod_pos_bound (z + 2 ^ 63) (2 ^ 64)). lia.
Qed.

Lemma Value_NewQuantity (v : Z) (f : Format) :
  int64_range v → Value (NewQuantity v f) = v.
Proof.
  intros H. unfold Value, NewQuantity, roundUp. simpl.
  destruct (Z.leb_spec 0 (v * 1000)).
  - replace (v * 1000 + 999) with (999 + v * 1000) by lia.
    rewrite Z.div_add by lia. change (999 / 1000) with 0.
    rewrite Z.add_0_l. by apply wrap64_id.
  - replace (- (v * 1000) + 999) with (999 + (- v) * 1000) by lia.
    rewrite Z.div_add by lia. change (999 / 1000) with 0.
    rewrite Z.add_0_l, Z.opp_involutive. by apply wrap64_id.
Qed.

(** ** Delete exemption *)

(** C7.  When the operation is DELETE, each of the four built-in
    admission functions (namespace, pod, container and replication
    controller scope) returns [(false, nil)]: no error, not dirty, and the
    world is left as it was, whatever the controller and the object. *)
Theorem delete_exemption (o : RangeOrder) (a : Attributes)
    (input : ResourceController) (observation : ResourceObservation) (w : World) :
  GetOperation a = "DELETE" →
  namespace.admissionFunc a input observation w = Returns (false, None) w
  ∧ pod.admissionFunc o a input observation w = Returns (false, None) w
  ∧ container.admissionFunc o a input observation w = Returns (false, None) w
  ∧ replicationcontroller.admissionFunc o a input observation w = Returns (false, None) w.
Proof.
  intros Hop.
  unfold namespace.admissionFunc, pod.admissionFunc, container.admissionFunc,
    replicationcontroller.admissionFunc.
  rewrite Hop. repeat split; by case_decide.
Qed.

Lemma delete_exemption_witness :
  let a := sample.attributes "DELETE" "pods" NilObject in
  let w := sample.world [("Pods", NewQuantity 3 DecimalSI)] [("Pods", NewQuantity 3 DecimalSI)] in
  namespace.admissionFunc a sample.namespaceMax (snapshot sample.namespaceMax) w
    = Returns (false, None) w
  ∧ pod.admissionFunc keyOrder a sample.namespaceMax (snapshot sample.namespaceMax) w
    = Returns (false, None) w
  ∧ container.admissionFunc keyOrder a sample.namespaceMax (snapshot sample.namespaceMax) w
    = Returns (false, None) w
  ∧ replicationcontroller.admissionFunc keyOrder a sample.namespaceMax
      (snapshot sample.namespaceMax) w
    = Returns (false, None) w.
Proof.
  intros a w. apply (delete_exemption keyOrder a). reflexivity.
Defined.

(** ** Who reports dirty *)





(** *** What the admission functions leave alone *)

Lemma quiet_ret {A} (a : A) : quiet (mret a).
Proof. intros w b w' H. unfold mret, M_ret, ret in H. by inversion H. Qed.

Lemma quiet_panic {A} : quiet (@panic A).
Proof. intros w b w' H. done. Qed.

Lemma quiet_bind {A B} (m : M A) (k : A → M B) :
  quiet m → (∀ a, quiet (k a)) → quiet (x ← m; k x).
Proof.
  intros Hm Hk w b w' H. unfold mbind, M_bind, bind in H.
  destruct (m w) as [a w1|] eqn:E; [|done].
  apply Hm in E as [E1 E2]. apply Hk in H as [H1 H2].
  split; congruence.
Qed.

Lemma quiet_getHeap : quiet getHeap.
Proof. intros w b w' H. unfold getHeap in H. by inversion H. Qed.

Lemma quiet_putHeap h : quiet (putHeap h).
Proof. intros w b w' H. unfold putHeap in H. by inversion H. Qed.

Lemma quiet_writeMap m name q : quiet (writeMap m name q).
Proof.
  destruct m; simpl; [|apply quiet_panic].
  apply quiet_bind; [apply quiet_getHeap | intros; apply quiet_putHeap].
Qed.

Lemma quiet_makeObservation status name q :
  quiet (namespace.makeObservation status name q).
Proof. unfold namespace.makeObservation. simpl. apply quiet_writeMap. Qed.

Ltac quiet_step :=
  first [ apply quiet_ret | apply quiet_panic | apply quiet_getHeap
        | apply quiet_makeObservation
        | apply quiet_bind; [|intros ?]
        | case_decide | case_match ].

Lemma quiet_namespace a input observation :
  quiet (namespace.admissionFunc a input observation).
Proof.
  unfold namespace.admissionFunc, namespace.kindBlock, namespace.podsBlock,
    namespace.memBlock.
  cbv zeta. repeat quiet_step.
Qed.

Lemma quiet_pod o a input observation :
  quiet (pod.admissionFunc o a input observation).
Proof. unfold pod.admissionFunc. cbv zeta. repeat quiet_step. Qed.

Lemma quiet_container o a input observation :
  quiet (container.admissionFunc o a input observation).
Proof. unfold container.admissionFunc. cbv zeta. repeat quiet_step. Qed.

Lemma quiet_replicationcontroller o a input observation :
  quiet (replicationcontroller.admissionFunc o a input observation).
Proof. unfold replicationcontroller.admissionFunc. cbv zeta. repeat quiet_step. Qed.

Lemma quiet_invoke a controller observation funcs :
  (∀ f, f ∈ funcs → quiet (f a controller observation)) →
  ∀ dirty, quiet (invoke a controller observation funcs dirty).
Proof.
  induction funcs as [|f funcs IH]; intros Hq dirty; simpl.
  - apply quiet_ret.
  - apply quiet_bind; [apply Hq, list_elem_of_here|].
    intros [funcDirty [e|]]; [apply quiet_ret|].
    apply IH. intros g Hg. by apply Hq, list_elem_of_further.
Qed.



Lemma builtins_quiet o f a controller observation :
  f ∈ (builtins o).*2 → quiet (f a controller observation).
Proof.
  simpl. rewrite !elem_of_cons, elem_of_nil.
  intros [-> | [-> | [-> | [-> | []]]]].
  - apply quiet_namespace.
  - apply quiet_pod.
  - apply quiet_container.
  - apply quiet_replicationcontroller.
Qed.



(** ** The reconciler when the listing fails *)


(** The result being allocated matters: with a client whose failing
    [List] returns a nil list, [synchronize] logs the error and then
    dereferences nil. *)
Lemma synchronize_nil_listing (rm : manager.ResourceManager) (e : Error) (w : World) :
  ResourceControllers_List (manager.kubeClient rm) NamespaceAll = (None, Some e) →
  manager.synchronize rm w = Panics.
Proof. intros Hl. unfold manager.synchronize. by rewrite Hl. Qed.


(** ** The order of the admission functions *)


Lemma registerAll_entries regs :
  ∀ plugins plugins',
    foldl (λ plugins '(name, admissionFunc),
             plugins ≫= RegisterAdmissionFunc name admissionFunc)
          (Some plugins) regs = Some plugins' →
    map_to_list plugins' ≡ₚ regs ++ map_to_list plugins.
Proof.
  induction regs as [|[n f] regs IH]; intros plugins plugins' H; simpl in *.
  - by inversion H.
  - unfold RegisterAdmissionFunc at 2 in H.
    destruct (plugins !! n) eqn:Hn.
    + exfalso. clear -H. induction regs as [|[n' f'] regs IH]; simpl in H; [done|auto].
    + apply IH in H. rewrite H, map_to_list_insert by done.
      by rewrite Permutation_middle.
Qed.



Lemma keyOrder_admissible : admissible keyOrder.
Proof. intros A m. done. Qed.





(** ** The Min evaluators *)

Lemma rangeFrom_min {A} (f : A → Z) (l : list A) :
  ∀ i val,
    rangeFrom (S i)
      (λ val index item, if Nat.eqb index 0 || (f item <? val) then f item else val)
      val l
    = foldl Z.min val (f <$> l).
Proof.
  induction l as [|x l IH]; intros i val; simpl; [done|].
  rewrite IH. f_equal.
  destruct (Z.ltb_spec (f x) val); lia.
Qed.

(** The pod-scope Min evaluators do compute the minimum over the pods. *)
Lemma podMin_minimum (items : list Pod) :
  observer.podMinCPU items
  = NewMilliQuantity (minimum (observer.podCPU <$> items)) DecimalSI
  ∧ observer.podMinMemory items
    = NewQuantity (minimum (observer.podMemory <$> items)) DecimalSI.
Proof.
  unfold observer.podMinCPU, observer.podMinMemory, forRange.
  destruct items as [|item items]; [done|].
  simpl. by rewrite (rangeFrom_min observer.podCPU), (rangeFrom_min observer.podMemory).
Qed.

(** The loop of the container-scope Min evaluators, for a measure [f] of
    a container. *)
Lemma containerMin_inner (f : Container → Z) (i : nat) (l : list Container) :
  ∀ j val,
    Nat.eqb i 0 && Nat.eqb j 0 = false →
    rangeFrom j
      (λ val j container,
         if (f container <? val) || (Nat.eqb i 0 && Nat.eqb j 0) then f container else val)
      val l
    = foldl Z.min val (f <$> l).
Proof.
  induction l as [|x l IH]; intros j val Hj; simpl; [done|].
  rewrite Hj, orb_false_r, IH by (by rewrite andb_false_r).
  f_equal. destruct (Z.ltb_spec (f x) val); lia.
Qed.

Lemma containersOf_cons (item : Pod) (items : list Pod) :
  containersOf (item :: items) = (Spec_Containers item ++ containersOf items)%list.
Proof. reflexivity. Qed.

Lemma containerMin_outer (f : Container → Z) (items : list Pod) :
  ∀ i val,
    rangeFrom (S i)
      (λ val i item,
         forRange
           (λ val j container,
              if (f container <? val) || (Nat.eqb i 0 && Nat.eqb j 0)
              then f container else val)
           val (Spec_Containers item))
      val items
    = foldl Z.min val (f <$> containersOf items).
Proof.
  induction items as [|item items IH]; intros i val; [done|].
  cbn [rangeFrom]. rewrite IH. unfold forRange. rewrite containerMin_inner by done.
  by rewrite containersOf_cons, fmap_app, foldl_app.
Qed.

Lemma containerMin_loop (f : Container → Z) (item : Pod) (rest : list Pod) :
  Spec_Containers item ≠ [] →
  forRange
    (λ val i item,
       forRange
         (λ val j container,
            if (f container <? val) || (Nat.eqb i 0 && Nat.eqb j 0)
            then f container else val)
         val (Spec_Containers item))
    0 (item :: rest)
  = minimum (f <$> containersOf (item :: rest)).
Proof.
  intros Hne. destruct item as [n [|container containers]]; [done|].
  unfold forRange at 1. cbn [rangeFrom]. rewrite containerMin_outer.
  unfold forRange. cbn [rangeFrom Spec_Containers].
  rewrite containerMin_inner by done.
  change (Nat.eqb 0 0 && Nat.eqb 0 0) with true. rewrite orb_true_r.
  rewrite containersOf_cons. simpl. by rewrite fmap_app, foldl_app.
Qed.

(** The container-scope Min evaluators compute the minimum over the
    containers when the first pod of the listing has a container. *)
Lemma containerMin_minimum (item : Pod) (rest : list Pod) :
  Spec_Containers item ≠ [] →
  observer.containerMinCPU (item :: rest)
  = NewMilliQuantity
      (minimum ((λ container, MilliValue (CPU container))
                  <$> containersOf (item :: rest))) DecimalSI
  ∧ observer.containerMinMemory (item :: rest)
    = NewQuantity
        (minimum ((λ container, Value (Memory container))
                    <$> containersOf (item :: rest))) DecimalSI.
Proof.
  intros Hne. unfold observer.containerMinCPU, observer.containerMinMemory.
  rewrite (containerMin_loop (λ container, MilliValue (CPU container))) by done.
  by rewrite (containerMin_loop (λ container, Value (Memory container))).
Qed.

(** Every Min evaluator returns 0 on an empty listing. *)
Lemma min_empty :
  observer.containerMinCPU [] = NewMilliQuantity 0 DecimalSI
  ∧ observer.containerMinMemory [] = NewQuantity 0 DecimalSI
  ∧ observer.podMinCPU [] = NewMilliQuantity 0 DecimalSI
  ∧ observer.podMinMemory [] = NewQuantity 0 DecimalSI.
Proof. done. Qed.

(** C5 fails on the code for the container-scope Min evaluators.  On a
    listing whose first pod has no container and whose second pod has one
    container of 5 units of memory and 7m of CPU, the evaluators registered
    for (Container, Min, Memory) and (Container, Min, CPU) return 0, while
    the minimum over the containers met is 5, respectively 7: no container
    has the indices (0, 0), so nothing seeds the running minimum. *)
Theorem container_min_unseeded :
  let c := Client (sample.rest [] sample.firstPodEmpty) in
  let observerFuncs := manager.bindAll [observer.observer c] in
  (∃ f, observerFuncs !! observerFuncKey "Container" "Min" "Memory" = Some f
        ∧ (f NewStore "ns").2 = (Some (NewQuantity 0 DecimalSI), None))
  ∧ (∃ f, observerFuncs !! observerFuncKey "Container" "Min" "CPU" = Some f
          ∧ (f NewStore "ns").2 = (Some (NewMilliQuantity 0 DecimalSI), None))
  ∧ minimum ((λ container, Value (Memory container))
               <$> containersOf sample.firstPodEmpty) = 5
  ∧ minimum ((λ container, MilliValue (CPU container))
               <$> containersOf sample.firstPodEmpty) = 7.
Proof.
  intros c observerFuncs. repeat split.
  - eexists. split; reflexivity.
  - eexists. split; reflexivity.
Qed.

(** ** Dirty detection of the reconciler *)

(** C3 fails on the code.  The controller records 100m of CPU as
    allocated in the namespace; the store now holds one pod asking for
    101m.  The namespace CPU observer returns 101m, one milli unit more,
    yet [syncResourceController] compares the value view of the two
    quantities, finds 1 = 1, leaves [dirty] unset and hands no observation
    to the store. *)
Theorem sync_misses_one_milli :
  let c := Client sample.cpuStore in
  let observerFuncs := manager.bindAll [observer.observer c] in
  allocatedRule (heap sample.cpuWorld) (Status sample.namespaceMax)
    "Namespace" "Max" "CPU" = Some (NewMilliQuantity 100 DecimalSI)
  ∧ (∃ f, observerFuncs !! observerFuncKey "Namespace" "Max" "CPU" = Some f
          ∧ (f NewStore "ns").2 = (Some (NewMilliQuantity 101 DecimalSI), None))
  ∧ (λ '(_, dirty, err), (dirty, err))
      <$> result (manager.observe keyOrder observerFuncs sample.namespaceMax sample.cpuWorld)
    = Some (false, None)
  ∧ result (manager.syncResourceController keyOrder c observerFuncs sample.namespaceMax
              sample.cpuWorld) = Some None
  ∧ created
      <$> after (manager.syncResourceController keyOrder c observerFuncs sample.namespaceMax
                   sample.cpuWorld) = Some [].
Proof.
  intros c observerFuncs. split; [reflexivity|]. split.
  - eexists. split; reflexivity.
  - repeat split; vm_compute; reflexivity.
Qed.

(** ** The snapshot of Admit and the controller *)

(** C4 fails on the code.  In scenario 1 of the spec (three pods allowed,
    two allocated, CREATE of a pod) the round of [Admit] succeeds and hands
    the observation to the store, and afterwards the controller object's
    own [Status.Allocated] reads 3 pods where it read 2 before: the
    snapshot is copied group by group, so its groups hold the same maps as
    the controller's, and [makeObservation] writes into such a map. *)
Theorem admit_writes_controller :
  let l := sample.plugin (sample.rest [sample.namespaceMax] []) [namespace.admissionFunc] in
  let a := sample.createPod [] in
  let controller := sample.namespaceMax in
  allocatedRule (heap sample.podsWorld) (Status controller) "Namespace" "Max" "Pods"
  = Some (NewQuantity 2 DecimalSI)
  ∧ length (elems (Allocated (Obs_Status (snapshot controller))))
    = length (elems (Allocated (Status controller)))
  ∧ result (admitController l a "p" controller sample.podsWorld) = Some None
  ∧ (λ w', allocatedRule (heap w') (Status controller) "Namespace" "Max" "Pods")
      <$> after (admitController l a "p" controller sample.podsWorld)
    = Some (Some (NewQuantity 3 DecimalSI)).
Proof.
  intros l a controller. split; [reflexivity|]. split; [reflexivity|].
  split; vm_compute; reflexivity.
Qed.

(** ** The namespace admission function *)

(** The heap after [m[name] = q] for the map at [l]. *)
Lemma writeMap_Returns l name q w :
  writeMap (Some l) name q w
  = Returns tt (setHeap (<[l := <[name := q]> (mapAt (heap w) l)]> (heap w)) w).
Proof. reflexivity. Qed.


Lemma readMap_write_ne h l name q m name' :
  name ≠ name' →
  readMap (<[l := <[name := q]> (mapAt h l)]> h) m name' = readMap h m name'.
Proof.
  intros Hne. destruct m as [l'|]; [|done]. simpl.
  destruct (decide (l = l')) as [->|Hl].
  - unfold mapAt at 1. rewrite lookup_insert_eq. simpl. by rewrite lookup_insert_ne.
  - unfold mapAt at 1 3. by rewrite lookup_insert_ne.
Qed.

Lemma makeObservation_Returns status l name q w :
  target status = Some l →
  namespace.makeObservation status name q w
  = Returns tt (setHeap (<[l := <[name := q]> (mapAt (heap w) l)]> (heap w)) w).
Proof.
  unfold target, rules, namespace.makeObservation. simpl. intros ->. reflexivity.
Qed.

(** Past its guards, [admissionFunc] on a CREATE is [kindBlock] on the
    (Namespace, Max) rules of the controller's status. *)
Lemma admissionFunc_create a input observation :
  GetOperation a = "CREATE" →
  is_Some (namespace.kindsToProcess !! GetKind a) →
  is_Some ((AllowedAndAllocated (Status input)).1 !! ResourceControllerGroupByNamespace) →
  namespace.admissionFunc a input observation
  = namespace.kindBlock a input observation
      (default "Unknown" (accessorName (GetObject a)))
      (rules (AllowedAndAllocated (Status input)).1
             ResourceControllerGroupByNamespace ResourceControllerRuleTypeMax)
      (rules (AllowedAndAllocated (Status input)).2
             ResourceControllerGroupByNamespace ResourceControllerRuleTypeMax)
      false.
Proof.
  intros Hop [k Hk] [g Hg]. unfold namespace.admissionFunc.
  rewrite Hop, Hk. simpl in *. rewrite Hg.
  unfold rules. by rewrite Hg.
Qed.

Lemma allowedRule_group h status name q :
  allowedRule h status ResourceControllerGroupByNamespace ResourceControllerRuleTypeMax name
  = Some q →
  is_Some ((AllowedAndAllocated status).1 !! ResourceControllerGroupByNamespace).
Proof.
  unfold allowedRule, rules.
  destruct (_ !! ResourceControllerGroupByNamespace); [eauto|].
  simpl. rewrite lookup_empty. done.
Qed.





Arguments namespace.makeObservation : simpl never.
Arguments namespace.memBlock : simpl never.
Arguments namespace.podsBlock : simpl never.

Ltac unbind := unfold mbind, M_bind, bind, mret, M_ret, ret, getHeap; simpl.



Arguments namespace.kindBlock : simpl never.






(** The functions run until the namespace function sets [dirty], and those
    after it keep it. *)
Lemma invoke_keeps a controller observation funcs w :
  (∀ f, f ∈ funcs → f a controller observation w = Returns (false, None) w) →
  ∀ dirty, invoke a controller observation funcs dirty w = Returns (dirty, None) w.
Proof.
  induction funcs as [|f funcs IH]; intros Hf dirty; simpl; [done|].
  unfold mbind, M_bind, bind. rewrite Hf by apply list_elem_of_here.
  rewrite orb_false_r. apply IH. intros g Hg. by apply Hf, list_elem_of_further.
Qed.




(** ** Waiting for the observation *)

Lemma kindsToProcess_kind kind resourceName :
  namespace.kindToMaxKindResourceName !! kind = Some resourceName →
  is_Some (namespace.kindsToProcess !! kind).
Proof.
  unfold namespace.kindToMaxKindResourceName, namespace.kindsToProcess.
  rewrite !lookup_insert, !lookup_empty.
  repeat case_decide; eauto. done.
Qed.

(** The count check of a kind that has no limit. *)
Lemma kindBlock_no_limit a input observation name allowed allocated resourceName w :
  namespace.kindToMaxKindResourceName !! GetKind a = Some resourceName →
  readMap (heap w) allowed resourceName = None →
  namespace.kindBlock a input observation name allowed allocated false w
  = namespace.podsBlock a input observation name allowed allocated false w.
Proof.
  intros Hk HL. unfold namespace.kindBlock.
  destruct allowed as [l|]; [|done].
  rewrite Hk. unbind. simpl in HL. by rewrite HL.
Qed.

(** The CPU and Memory checks of a pod, when one of the two limits has no
    allocation: the block returns an error, which is the waiting error
    unless the CPU check refuses the pod before the Memory check is
    reached. *)
Ltac closing := split; [reflexivity|]; split; [reflexivity|]; intros _; reflexivity.

Lemma podsBlock_waiting a input observation name allowed allocated dirty l pod
    usageName L w :
  GetKind a = "pods" →
  GetObject a = PodObject pod →
  target (Obs_Status observation) = Some l →
  usageName ∈ ["CPU"; "Memory"] →
  readMap (heap w) allowed usageName = Some L →
  readMap (heap w) allocated usageName = None →
  ∃ dirty' reason w',
    namespace.podsBlock a input observation name allowed allocated dirty w
    = Returns (dirty', Some (Forbidden "pods" name reason)) w'
    ∧ created w' = created w
    ∧ ((usageName = "Memory" →
        readMap (heap w) allowed "CPU" = None
        ∨ ∃ cpuLimit cpuObservation,
            readMap (heap w) allowed "CPU" = Some cpuLimit
            ∧ readMap (heap w) allocated "CPU" = Some cpuObservation
            ∧ add64 (MilliValue cpuObservation) (podUsageCPU pod) < MilliValue cpuLimit) →
       reason = WaitingForObservation).
Proof.
  intros Hk Ho Ht Hin HL HA. unfold namespace.podsBlock, namespace.waiting.
  rewrite Hk, Ho. unbind.
  rewrite !elem_of_cons, elem_of_nil in Hin.
  destruct Hin as [-> | [-> | []]].
  - rewrite HL. simpl. rewrite HA. eexists _, _, w; closing.
  - rewrite HL. rewrite orb_true_r.
    destruct (readMap (heap w) allowed "CPU") as [cpuLimit|] eqn:Hc.
    + destruct (readMap (heap w) allocated "CPU") as [cpuObservation|] eqn:Hco.
      * fold (podUsageCPU pod).
        destruct (Z.leb_spec (MilliValue cpuLimit)
                    (add64 (MilliValue cpuObservation) (podUsageCPU pod))).
        -- eexists _, _, w. split; [reflexivity|]. split; [reflexivity|].
           intros Hpass. destruct (Hpass eq_refl) as [|(cl & co & [= <-] & [= <-] & Hlt)];
             [done | lia].
        -- rewrite (makeObservation_Returns _ l) by done.
           unfold namespace.memBlock, namespace.waiting. rewrite Hk. unbind.
           rewrite readMap_write_ne by done. rewrite HA.
           eexists _, _, _; closing.
      * eexists _, _, w; closing.
    + unfold namespace.memBlock, namespace.waiting. rewrite Hk. unbind. rewrite HA.
      eexists _, _, w; closing.
Qed.

(** The rule lists of a projection, by the groups it was built from. *)
Lemma rules_addGroup byGroup g groupBy ruleType :
  rules (addGroup byGroup g) groupBy ruleType
  = if decide (GroupBy g = groupBy ∧ RuleType g = ruleType)
    then Resources g
    else rules byGroup groupBy ruleType.
Proof.
  unfold rules, addGroup.
  destruct (decide (GroupBy g = groupBy)) as [<-|Hg].
  - rewrite lookup_insert_eq. simpl.
    destruct (decide (RuleType g = ruleType)) as [<-|Hr].
    + rewrite lookup_insert_eq. by rewrite decide_True.
    + rewrite lookup_insert_ne by done. rewrite decide_False by (by intros [? ?]).
      destruct (byGroup !! GroupBy g) eqn:Hb; rewrite ?Hb; [done|].
      by rewrite lookup_insert_eq.
  - rewrite lookup_insert_ne by done. rewrite decide_False by (by intros [? ?]).
    destruct (byGroup !! GroupBy g) eqn:Hb; rewrite ?Hb; [done|].
    by rewrite lookup_insert_ne.
Qed.

Lemma rules_foldl groups groupBy ruleType :
  rules (foldl addGroup ∅ groups) groupBy ruleType
  = default None (Resources <$> lastGroup groups groupBy ruleType).
Proof.
  unfold lastGroup. induction groups as [|g groups IH] using rev_ind; [done|].
  rewrite foldl_app. simpl. rewrite rules_addGroup, filter_app.
  case_decide as Hg.
  - rewrite filter_cons_True by done. rewrite filter_nil. by rewrite last_snoc.
  - rewrite filter_cons_False by done. rewrite filter_nil. by rewrite app_nil_r.
Qed.

(** ** The namespace function, case by case *)





(** *** The snapshot and the group the namespace function writes into *)









(** ** The observation of a sync *)







Lemma readMap_entries h m name : readMap h m name = entries h m !! name.
Proof. destruct m; [done|]. simpl. by rewrite lookup_empty. Qed.

(** Every key of a map is among the names its range visits. *)
Lemma ranged o (m : gmap string Quantity) name :
  admissible o → is_Some (m !! name) → name ∈ (range o m).*1.
Proof.
  intros Ho [q Hq]. apply list_elem_of_fmap. exists (name, q). split; [done|].
  rewrite (Ho _ m). by apply elem_of_map_to_list.
Qed.



Lemma copy_make (groups : list ResourceControllerGroup) :
  copy (make (length groups)) groups = groups.
Proof.
  unfold copy, make. rewrite length_replicate, Nat.min_id.
  rewrite firstn_all, drop_replicate, Nat.sub_diag. apply app_nil_r.
Qed.

(** *** The built-in observer functions answer *)









(** * Further properties of the code *)

(** ** The projection of a status: AllowedAndAllocated *)

(** X1.  The projection of a status reads a rule from the last group of
    the list that has the scope and the rule type asked for: a later group
    overrides an earlier one of the same scope and rule type, and without
    such a group the rule list is nil.  This holds for the allowed and for
    the allocated groups. *)
Theorem projection_last_group (status : ResourceControllerStatus)
    (groupBy ruleType : string) :
  rules (AllowedAndAllocated status).1 groupBy ruleType
  = default None (Resources <$> lastGroup (elems (Allowed status)) groupBy ruleType)
  ∧ rules (AllowedAndAllocated status).2 groupBy ruleType
    = default None (Resources <$> lastGroup (elems (Allocated status)) groupBy ruleType).
Proof. split; apply rules_foldl. Qed.

Lemma addGroup_lookup byGroup g groupBy :
  is_Some (addGroup byGroup g !! groupBy)
  ↔ GroupBy g = groupBy ∨ is_Some (byGroup !! groupBy).
Proof.
  unfold addGroup. destruct (decide (GroupBy g = groupBy)) as [<-|Hg].
  - rewrite lookup_insert_eq. split; [by left | by eexists].
  - rewrite lookup_insert_ne by done.
    destruct (byGroup !! GroupBy g); [tauto|].
    rewrite lookup_insert_ne by done. tauto.
Qed.

Lemma foldl_addGroup_lookup groups groupBy :
  is_Some (foldl addGroup ∅ groups !! groupBy)
  ↔ ∃ g, g ∈ groups ∧ GroupBy g = groupBy.
Proof.
  induction groups as [|g groups IH] using rev_ind.
  - simpl. rewrite lookup_empty. split; [by intros [? ?]|].
    intros (g & Hg & _). by apply elem_of_nil in Hg.
  - rewrite foldl_app. simpl. rewrite addGroup_lookup, IH. split.
    + intros [<- | (g' & Hin & <-)].
      * exists g. split; [|done]. apply elem_of_app. right. apply list_elem_of_here.
      * exists g'. split; [|done]. apply elem_of_app. by left.
    + intros (g' & Hin & <-). apply elem_of_app in Hin as [Hin|Hin].
      * right. by exists g'.
      * apply list_elem_of_singleton in Hin as ->. by left.
Qed.

(** X2.  A scope is present in the projection of a status exactly when
    some group of the list has that scope, whatever its rule type and
    whether or not its resources are nil.  This is what the [== nil] guards
    of the admission functions test. *)
Theorem projection_scope_present (status : ResourceControllerStatus) (groupBy : string) :
  (is_Some ((AllowedAndAllocated status).1 !! groupBy)
   ↔ ∃ g, g ∈ elems (Allowed status) ∧ GroupBy g = groupBy)
  ∧ (is_Some ((AllowedAndAllocated status).2 !! groupBy)
     ↔ ∃ g, g ∈ elems (Allocated status) ∧ GroupBy g = groupBy).
Proof. split; apply foldl_addGroup_lookup. Qed.

(** ** The key of an observer function *)

Lemma append_nil_l (s : string) : "" +:+ s = s.
Proof. reflexivity. Qed.

Lemma append_cons (c : Ascii.ascii) (a s : string) :
  String c a +:+ s = String c (a +:+ s).
Proof. reflexivity. Qed.

Lemma append_assoc (a b c : string) : (a +:+ b) +:+ c = a +:+ b +:+ c.
Proof.
  induction a as [|x a IH]; [done|].
  rewrite !append_cons. by f_equal.
Qed.

(** Two strings cut at their first dot. *)
Lemma split_at_dot (a : string) :
  ∀ a' r r',
    noDot a = true → noDot a' = true →
    a +:+ "." +:+ r = a' +:+ "." +:+ r' →
    a = a' ∧ r = r'.
Proof.
  induction a as [|c a IH]; intros [|c' a'] r r' Ha Ha' H;
    rewrite ?append_nil_l, ?append_cons in H.
  - by injection H.
  - injection H as <- _. done.
  - injection H as -> _. done.
  - injection H as -> H. simpl in Ha, Ha'.
    apply andb_prop in Ha as [_ Ha]. apply andb_prop in Ha' as [_ Ha'].
    destruct (IH a' r r' Ha Ha' H) as [-> ->]. done.
Qed.

(** X3.  The key [observerFuncKey] builds tells rule keys apart as long as
    the scope and the rule type hold no dot: two triples with the same key
    are then the same triple. *)
Theorem observerFuncKey_injective (groupBy ruleType name groupBy' ruleType' name' : string) :
  noDot groupBy = true → noDot ruleType = true →
  noDot groupBy' = true → noDot ruleType' = true →
  observerFuncKey groupBy ruleType name = observerFuncKey groupBy' ruleType' name' →
  groupBy = groupBy' ∧ ruleType = ruleType' ∧ name = name'.
Proof.
  intros Hg Hr Hg' Hr' H. unfold observerFuncKey in H.
  apply split_at_dot in H as [-> H]; [|done..].
  apply split_at_dot in H as [-> ->]; done.
Qed.

Lemma observerFuncKey_injective_witness :
  "Pod" = "Pod" ∧ "Min" = "Min" ∧ "Memory" = "Memory".
Proof.
  apply (observerFuncKey_injective "Pod" "Min" "Memory" "Pod" "Min" "Memory");
    reflexivity.
Defined.

(** X4.  With a dot in the scope or the rule type the key is ambiguous:
    the scope [a.b] with the rule type [c] has the key of the scope [a]
    with the rule type [b.c], so the two rule keys share one observer
    function. *)
Theorem observerFuncKey_collides (a b c name : string) :
  observerFuncKey (a +:+ "." +:+ b) c name = observerFuncKey a (b +:+ "." +:+ c) name.
Proof. unfold observerFuncKey. by rewrite !append_assoc. Qed.

(** ** The table of observer functions: NewResourceManager *)

Lemma foldl_bind {A B C} (f : A → C → A) (g : B → list C) (l : list B) :
  ∀ a, foldl (λ acc x, foldl f acc (g x)) a l = foldl f a (l ≫= g).
Proof.
  induction l as [|x l IH]; intros a; [done|].
  change ((x :: l) ≫= g) with (g x ++ (l ≫= g))%list.
  rewrite foldl_app. apply IH.
Qed.

Lemma bindAll_bindings observers :
  manager.bindAll observers
  = foldl (λ observerFuncs binding, <[bindingKey binding := Func binding]> observerFuncs)
          ∅ (bindingsOf observers).
Proof. unfold manager.bindAll, bindingsOf. by rewrite foldl_bind. Qed.

Lemma bindings_lookup bindings key :
  foldl (λ observerFuncs binding, <[bindingKey binding := Func binding]> observerFuncs)
        (∅ : gmap string ObserverFunc) bindings !! key
  = Func <$> last (filter (λ binding, bindingKey binding = key) bindings).
Proof.
  induction bindings as [|b bindings IH] using rev_ind; [done|].
  rewrite foldl_app, filter_app. cbn [foldl].
  destruct (decide (bindingKey b = key)) as [<-|Hne].
  - rewrite lookup_insert_eq, filter_cons_True, filter_nil by done.
    by rewrite last_snoc.
  - rewrite lookup_insert_ne, filter_cons_False, filter_nil, app_nil_r by done.
    apply IH.
Qed.

(** X5.  [NewResourceManager] files every binding of every observer under
    its key, in order, and does not look for duplicates: the function found
    under a key is that of the last binding with this key, and a key no
    binding has is not in the table. *)
Theorem bindAll_last_binding (observers : list Observer) (key : string) :
  manager.bindAll observers !! key
  = Func <$> last (filter (λ binding, bindingKey binding = key) (bindingsOf observers)).
Proof. rewrite bindAll_bindings. apply bindings_lookup. Qed.

Lemma last_filter_NoDup {A B} `{EqDecision B} (f : A → B) (l : list A) (x : A) :
  NoDup (f <$> l) → x ∈ l → last (filter (λ y, f y = f x) l) = Some x.
Proof.
  induction l as [|y l IH] using rev_ind; intros Hnd Hin; [by apply elem_of_nil in Hin|].
  rewrite fmap_app in Hnd. apply NoDup_app in Hnd as (Hl & Hdis & _).
  rewrite filter_app. apply elem_of_app in Hin as [Hin|Hin].
  - rewrite filter_cons_False, filter_nil, app_nil_r; [by apply IH|].
    intros Heq. apply (Hdis (f x)).
    + apply list_elem_of_fmap. by exists x.
    + rewrite <- Heq. simpl. apply list_elem_of_here.
  - apply list_elem_of_singleton in Hin as ->.
    rewrite filter_cons_True, filter_nil by done. apply last_snoc.
Qed.

Lemma builtin_keys_NoDup c :
  NoDup (bindingKey <$> ObserverFuncBindings (observer.observer c)).
Proof. apply (bool_decide_unpack _). vm_compute. reflexivity. Qed.

(** X6.  The built-in observer binds fourteen rule keys whose table keys
    are pairwise distinct, so the table built from it returns, under the
    key of each binding, the function of that very binding: no built-in
    evaluator shadows another. *)
Theorem builtin_bindings_found (c : Interface) :
  length (ObserverFuncBindings (observer.observer c)) = 14%nat
  ∧ NoDup (bindingKey <$> ObserverFuncBindings (observer.observer c))
  ∧ ∀ binding,
      binding ∈ ObserverFuncBindings (observer.observer c) →
      manager.bindAll [observer.observer c] !! bindingKey binding = Some (Func binding).
Proof.
  split; [reflexivity|]. split; [apply builtin_keys_NoDup|].
  intros binding Hin. rewrite bindAll_bindings, bindings_lookup.
  unfold bindingsOf. change ([observer.observer c] ≫= ObserverFuncBindings)
    with (ObserverFuncBindings (observer.observer c) ++ [])%list.
  rewrite app_nil_r.
  by rewrite (last_filter_NoDup bindingKey _ binding (builtin_keys_NoDup c) Hin).
Qed.

(** ** The registry of admission functions *)

Lemma registerAll_fresh regs :
  ∀ plugins : gmap string AdmissionFunc,
    NoDup regs.*1 →
    (∀ name, name ∈ regs.*1 → plugins !! name = None) →
    is_Some (foldl (λ plugins '(name, admissionFunc),
                      plugins ≫= RegisterAdmissionFunc name admissionFunc)
                   (Some plugins) regs).
Proof.
  induction regs as [|[n f] regs IH]; intros plugins Hnd Hfresh; simpl; [by eexists|].
  apply NoDup_cons in Hnd as [Hn Hnd].
  unfold RegisterAdmissionFunc at 2. rewrite Hfresh by apply list_elem_of_here.
  apply IH; [done|]. intros name Hin.
  rewrite lookup_insert_ne; [by apply Hfresh, list_elem_of_further|].
  by intros ->.
Qed.

(** X7.  A sequence of registrations goes through exactly when no name is
    registered twice (a second registration of a name stops the process),
    and the registry then holds each registered function under its name
    and nothing else. *)
Theorem registerAll_distinct (regs : list (string * AdmissionFunc)) :
  (is_Some (registerAll regs) ↔ NoDup regs.*1)
  ∧ ∀ plugins,
      registerAll regs = Some plugins →
      ∀ name admissionFunc,
        plugins !! name = Some admissionFunc ↔ (name, admissionFunc) ∈ regs.
Proof.
  split; [split|].
  - intros [plugins H]. apply registerAll_entries in H.
    rewrite map_to_list_empty, app_nil_r in H.
    rewrite <- H. apply NoDup_fst_map_to_list.
  - intros Hnd. apply registerAll_fresh; [done|]. intros name _. apply lookup_empty.
  - intros plugins H name admissionFunc. apply registerAll_entries in H.
    rewrite map_to_list_empty, app_nil_r in H.
    by rewrite <- H, elem_of_map_to_list.
Qed.

(** ** The listings cached in the store *)

(** X8.  Each of the three listing helpers of the observer memoizes in
    the store: whatever the store held before, a second call on the store
    left by a first call returns the listing of the first call, leaves the
    store as it is and returns no error, for any namespace, even if the
    first call had returned the listing together with an error.  A call
    leaves the two other cached listings alone. *)
Theorem cached_listing (c : Interface) (store : Store) (namespace namespace' : string) :
  (let first := observer.pods c store namespace in
   observer.pods c first.1 namespace' = (first.1, (first.2.1, None))
   ∧ store_services first.1 = store_services store
   ∧ store_replicationControllers first.1 = store_replicationControllers store)
  ∧ (let first := observer.services c store namespace in
     observer.services c first.1 namespace' = (first.1, (first.2.1, None))
     ∧ store_pods first.1 = store_pods store
     ∧ store_replicationControllers first.1 = store_replicationControllers store)
  ∧ (let first := observer.replicationControllers c store namespace in
     observer.replicationControllers c first.1 namespace' = (first.1, (first.2.1, None))
     ∧ store_pods first.1 = store_pods store
     ∧ store_services first.1 = store_services store).
Proof.
  repeat split.
  - unfold observer.pods. destruct (store_pods store) eqn:H; simpl.
    + by rewrite H.
    + by destruct (Pods_List c namespace).
  - unfold observer.pods. destruct (store_pods store); [done|].
    by destruct (Pods_List c namespace).
  - unfold observer.pods. destruct (store_pods store); [done|].
    by destruct (Pods_List c namespace).
  - unfold observer.services. destruct (store_services store) eqn:H; simpl.
    + by rewrite H.
    + by destruct (Services_List c namespace).
  - unfold observer.services. destruct (store_services store); [done|].
    by destruct (Services_List c namespace).
  - unfold observer.services. destruct (store_services store); [done|].
    by destruct (Services_List c namespace).
  - unfold observer.replicationControllers.
    destruct (store_replicationControllers store) eqn:H; simpl.
    + by rewrite H.
    + by destruct (ReplicationControllers_List c namespace).
  - unfold observer.replicationControllers.
    destruct (store_replicationControllers store); [done|].
    by destruct (ReplicationControllers_List c namespace).
  - unfold observer.replicationControllers.
    destruct (store_replicationControllers store); [done|].
    by destruct (ReplicationControllers_List c namespace).
Qed.

(** ** What the evaluators compute *)

Lemma wrap64_add_l (a b : Z) : wrap64 (wrap64 a + b) = wrap64 (a + b).
Proof.
  unfold wrap64. f_equal.
  replace ((a + 2 ^ 63) mod 2 ^ 64 - 2 ^ 63 + b + 2 ^ 63)
    with ((a + 2 ^ 63) mod 2 ^ 64 + b) by lia.
  rewrite Zplus_mod_idemp_l. f_equal. lia.
Qed.

Lemma foldl_add64 {A} (f : A → Z) (l : list A) :
  ∀ acc, foldl (λ acc x, add64 acc (f x)) (wrap64 acc) l = wrap64 (acc + total (f <$> l)).
Proof.
  induction l as [|x l IH]; intros acc; simpl.
  - unfold total. simpl. by rewrite Z.add_0_r.
  - unfold add64 at 2. rewrite wrap64_add_l, IH. f_equal.
    unfold total. simpl. symmetry. apply Z.add_assoc.
Qed.

(** X9.  The namespace-scope CPU and Memory evaluators return the sum,
    over all containers of all pods of the listing, of the containers'
    milli-CPU, respectively memory value, reduced to int64; the additions
    wrap around one by one, which gives the same as reducing the whole
    sum. *)
Theorem namespace_usage_sum (items : list Pod) :
  observer.namespaceCPU items
  = NewMilliQuantity
      (wrap64 (total ((λ container, MilliValue (CPU container)) <$> containersOf items)))
      DecimalSI
  ∧ observer.namespaceMemory items
    = NewQuantity
        (wrap64 (total ((λ container, Value (Memory container)) <$> containersOf items)))
        DecimalSI.
Proof.
  unfold observer.namespaceCPU, observer.namespaceMemory, containersOf.
  split; f_equal.
  - rewrite (foldl_bind (λ val container, add64 val (MilliValue (CPU container)))
               Spec_Containers).
    apply (foldl_add64 (λ container, MilliValue (CPU container)) _ 0).
  - rewrite (foldl_bind (λ val container, add64 val (Value (Memory container)))
               Spec_Containers).
    apply (foldl_add64 (λ container, Value (Memory container)) _ 0).
Qed.

Lemma greatest_cons (x : Z) (l : list Z) : greatest (x :: l) = Z.max x (greatest l).
Proof. reflexivity. Qed.

Lemma greatest_nonneg (l : list Z) : 0 <= greatest l.
Proof.
  induction l as [|x l IH]; [done|]. rewrite greatest_cons. lia.
Qed.

(** [greatest l] is 0 or an element of [l], and no element is above it. *)
Lemma greatest_bound (l : list Z) :
  (∀ x, x ∈ l → x <= greatest l) ∧ (greatest l = 0 ∨ greatest l ∈ l).
Proof.
  induction l as [|x l [IH1 IH2]].
  - split; [|by left]. intros x Hx. by apply elem_of_nil in Hx.
  - rewrite greatest_cons. split.
    + intros y Hy. apply elem_of_cons in Hy as [->|Hy]; [lia|].
      specialize (IH1 y Hy). lia.
    + destruct (Z.max_spec x (greatest l)) as [[_ ->]|[_ ->]].
      * destruct IH2 as [->|H]; [by left|]. right. by apply list_elem_of_further.
      * right. apply list_elem_of_here.
Qed.

Lemma foldl_max {A} (f : A → Z) (l : list A) :
  ∀ val,
    0 <= val →
    foldl (λ val x, if val <? f x then f x else val) val l
    = Z.max val (greatest (f <$> l)).
Proof.
  induction l as [|x l IH]; intros val Hval.
  - unfold greatest. simpl. lia.
  - rewrite fmap_cons, greatest_cons. cbn [foldl].
    rewrite IH; destruct (Z.ltb_spec val (f x)); lia.
Qed.

(** X10.  Every Max evaluator returns the greatest of 0 and the values it
    ranges over: the memory values, respectively milli-CPU, of all
    containers (container scope), the per-pod sums (pod scope), the
    replica counts (replication-controller scope).  The result is never
    negative, and it is 0 on an empty listing. *)
Theorem max_evaluators (pods : list Pod) (controllers : list ReplicationController) :
  observer.containerMaxMemory pods
  = NewQuantity
      (greatest ((λ container, Value (Memory container)) <$> containersOf pods)) DecimalSI
  ∧ observer.containerMaxCPU pods
    = NewMilliQuantity
        (greatest ((λ container, MilliValue (CPU container)) <$> containersOf pods))
        DecimalSI
  ∧ observer.podMaxCPU pods
    = NewMilliQuantity (greatest (observer.podCPU <$> pods)) DecimalSI
  ∧ observer.podMaxMemory pods
    = NewQuantity (greatest (observer.podMemory <$> pods)) DecimalSI
  ∧ observer.maxReplicas controllers
    = NewQuantity (greatest ((λ item, wrap64 (Spec_Replicas item)) <$> controllers))
        DecimalSI.
Proof.
  unfold observer.containerMaxMemory, observer.containerMaxCPU, observer.podMaxCPU,
    observer.podMaxMemory, observer.maxReplicas, containersOf.
  repeat split; f_equal.
  - rewrite (foldl_bind (λ val container,
                           if val <? Value (Memory container)
                           then Value (Memory container) else val) Spec_Containers).
    rewrite (foldl_max (λ container, Value (Memory container))) by done.
    pose proof (greatest_nonneg
                  ((λ container, Value (Memory container)) <$> (pods ≫= Spec_Containers))).
    lia.
  - rewrite (foldl_bind (λ val container,
                           if val <? MilliValue (CPU container)
                           then MilliValue (CPU container) else val) Spec_Containers).
    rewrite (foldl_max (λ container, MilliValue (CPU container))) by done.
    pose proof (greatest_nonneg
                  ((λ container, MilliValue (CPU container))
                     <$> (pods ≫= Spec_Containers))).
    lia.
  - rewrite (foldl_max observer.podCPU) by done.
    pose proof (greatest_nonneg (observer.podCPU <$> pods)). lia.
  - rewrite (foldl_max observer.podMemory) by done.
    pose proof (greatest_nonneg (observer.podMemory <$> pods)). lia.
  - rewrite (foldl_max (λ item, wrap64 (Spec_Replicas item))) by done.
    pose proof (greatest_nonneg ((λ item, wrap64 (Spec_Replicas item)) <$> controllers)).
    lia.
Qed.

(** ** What the scope functions accept *)

Lemma firstError_None {A} (body : A → option Error) (l : list A) :
  firstError body l = None ↔ ∀ x, x ∈ l → body x = None.
Proof.
  induction l as [|x l IH]; simpl.
  - split; [|done]. intros _ x Hx. by apply elem_of_nil in Hx.
  - destruct (body x) eqn:Hb.
    + split; [done|]. intros H. rewrite <- Hb. apply H, list_elem_of_here.
    + rewrite IH. split.
      * intros H y Hy. apply elem_of_cons in Hy as [->|Hy]; [done | by apply H].
      * intros H y Hy. by apply H, list_elem_of_further.
Qed.

Lemma range_elem {A} o (m : gmap string A) (k : string) (v : A) :
  admissible o → (k, v) ∈ range o m ↔ m !! k = Some v.
Proof. intros Ho. by rewrite (Ho _ m), elem_of_map_to_list. Qed.

(** The two nested ranges of the scope functions find no error exactly
    when no rule of the group gives one. *)
Lemma ranged_rules_None o h (groupRules : gmap string ResourceList)
    (check : string → string → Quantity → option Error) :
  admissible o →
  firstError (λ '(ruleType, resources),
                firstError (λ '(name, quantity), check ruleType name quantity)
                           (range o (entries h resources)))
             (range o groupRules) = None
  ↔ ∀ ruleType name quantity,
      readMap h (default None (groupRules !! ruleType)) name = Some quantity →
      check ruleType name quantity = None.
Proof.
  intros Ho. unfold ResourceList in *. rewrite firstError_None. split.
  - intros H ruleType name quantity Hr.
    destruct (groupRules !! ruleType) as [resources|] eqn:Hg; [|done].
    simpl in Hr. rewrite readMap_entries in Hr.
    specialize (H (ruleType, resources)). simpl in H.
    rewrite range_elem, firstError_None in H by done.
    specialize (H Hg (name, quantity)). simpl in H. apply H.
    by rewrite range_elem.
  - intros H [ruleType resources] Hg. rewrite range_elem in Hg by done.
    apply firstError_None. intros [name quantity] Hn.
    rewrite range_elem in Hn by done.
    apply H. rewrite Hg. simpl. by rewrite readMap_entries.
Qed.

Lemma wrap64_idem (z : Z) : wrap64 (wrap64 z) = wrap64 z.
Proof. apply wrap64_id, wrap64_range. Qed.

Lemma podUsage_range (pod : Pod) :
  wrap64 (podUsageCPU pod) = podUsageCPU pod
  ∧ wrap64 (podUsageMemory pod) = podUsageMemory pod.
Proof.
  unfold podUsageCPU, podUsageMemory. split.
  - rewrite (foldl_add64 (λ container, MilliValue (CPU container)) _ 0).
    apply wrap64_idem.
  - rewrite (foldl_add64 (λ container, Value (Memory container)) _ 0).
    apply wrap64_idem.
Qed.

(** The rule list of a scope and rule type, once the scope is known to
    be present. *)
Lemma rules_present (byGroup : gmap string (gmap string ResourceList))
    groupBy groupRules ruleType :
  byGroup !! groupBy = Some groupRules →
  rules byGroup groupBy ruleType = default None (groupRules !! ruleType).
Proof. intros H. unfold rules. by rewrite H. Qed.

Lemma rules_absent (byGroup : gmap string (gmap string ResourceList)) groupBy ruleType :
  byGroup !! groupBy = None → rules byGroup groupBy ruleType = None.
Proof. intros H. unfold rules. rewrite H. simpl. by rewrite lookup_empty. Qed.

(** The pod-scope rule check gives no error on a set of rules exactly
    when the sums of the pod lie within them. *)
Lemma pod_checkRule_None (R : string → string → Quantity → Prop) a pod :
  (∀ ruleType name quantity,
     R ruleType name quantity →
     pod.checkRule a pod (podUsageMemory pod)
       (NewQuantity (podUsageMemory pod) BinarySI)
       (NewMilliQuantity (podUsageCPU pod) DecimalSI) ruleType name quantity = None)
  ↔ (∀ q, R "Max" "Memory" q → podUsageMemory pod <= Value q)
    ∧ (∀ q, R "Max" "CPU" q → podUsageCPU pod <= MilliValue q)
    ∧ (∀ q, R "Min" "Memory" q → Value q <= podUsageMemory pod)
    ∧ (∀ q, R "Min" "CPU" q → MilliValue q <= podUsageCPU pod).
Proof.
  assert (MilliValue (NewMilliQuantity (podUsageCPU pod) DecimalSI) = podUsageCPU pod)
    as Hcpu by apply podUsage_range.
  unfold pod.checkRule. rewrite Hcpu. split.
  - intros H. repeat split; intros q Hq; specialize (H _ _ _ Hq); simpl in H.
    + by destruct (Z.ltb_spec (Value q) (podUsageMemory pod)).
    + by destruct (Z.ltb_spec (MilliValue q) (podUsageCPU pod)).
    + by destruct (Z.ltb_spec (podUsageMemory pod) (Value q)).
    + by destruct (Z.ltb_spec (podUsageCPU pod) (MilliValue q)).
  - intros (Hmax_mem & Hmax_cpu & Hmin_mem & Hmin_cpu) ruleType name q Hq.
    repeat case_decide; subst; try done.
    + specialize (Hmax_mem q Hq).
      destruct (Z.ltb_spec (Value q) (podUsageMemory pod)); [lia|done].
    + specialize (Hmax_cpu q Hq).
      destruct (Z.ltb_spec (MilliValue q) (podUsageCPU pod)); [lia|done].
    + specialize (Hmin_mem q Hq).
      destruct (Z.ltb_spec (podUsageMemory pod) (Value q)); [lia|done].
    + specialize (Hmin_cpu q Hq).
      destruct (Z.ltb_spec (podUsageCPU pod) (MilliValue q)); [lia|done].
Qed.

(** X11.  On a create or an update of a pod, the pod-scope admission
    function returns without touching the world and without reporting
    dirty, and it returns no error exactly when the pod's summed memory and
    milli-CPU lie within the Pod rules of the controller's status: at most
    each Max that is set, at least each Min that is set.  The order in
    which the rules are ranged over does not matter for this. *)
Theorem pod_admission_bounds (o : RangeOrder) (a : Attributes)
    (input : ResourceController) (observation : ResourceObservation) (pod : Pod)
    (w : World) :
  let rule := allowedRule (heap w) (Status input) "Pod" in
  admissible o →
  GetOperation a ≠ "DELETE" →
  GetKind a = "pods" →
  GetObject a = PodObject pod →
  ∃ err,
    pod.admissionFunc o a input observation w = Returns (false, err) w
    ∧ (err = None
       ↔ (∀ q, rule "Max" "Memory" = Some q → podUsageMemory pod <= Value q)
         ∧ (∀ q, rule "Max" "CPU" = Some q → podUsageCPU pod <= MilliValue q)
         ∧ (∀ q, rule "Min" "Memory" = Some q → Value q <= podUsageMemory pod)
         ∧ (∀ q, rule "Min" "CPU" = Some q → MilliValue q <= podUsageCPU pod)).
Proof.
  intros rule Ho Hop Hk Hobj. unfold pod.admissionFunc.
  rewrite Hk, Hobj. rewrite decide_False by done. rewrite decide_False by (by intros H).
  simpl. subst rule. unfold allowedRule. simpl.
  destruct (foldl addGroup ∅ (elems (Allowed (Status input)))
            !! ResourceControllerGroupByPod) as [groupRules|] eqn:Hg.
  - eexists. split; [reflexivity|].
    rewrite (ranged_rules_None o (heap w) groupRules) by done.
    rewrite (pod_checkRule_None
               (λ ruleType name quantity,
                  readMap (heap w) (default None (groupRules !! ruleType)) name
                  = Some quantity)).
    by rewrite !(rules_present _ "Pod" groupRules _ Hg).
  - exists None. split; [reflexivity|]. split; [|done]. intros _.
    rewrite !(rules_absent _ "Pod" _ Hg). by repeat split.
Qed.

Lemma pod_admission_bounds_witness :
  let a := sample.attributes "UPDATE" "pods"
             (PodObject (sample.pod [sample.container 10 50])) in
  let c := sample.controller "Pod" "Max" in
  let w := sample.world [("Memory", NewQuantity 100 BinarySI)] [] in
  pod.admissionFunc keyOrder a c (snapshot c) w = Returns (false, None) w.
Proof.
  intros a c w.
  destruct (pod_admission_bounds keyOrder a c (snapshot c)
              (sample.pod [sample.container 10 50]) w keyOrder_admissible)
    as (err & H & Hiff); [discriminate | reflexivity | reflexivity |].
  rewrite H. f_equal. f_equal. apply Hiff.
  repeat split; intros q Hq; vm_compute in Hq; try discriminate Hq.
  injection Hq as <-. vm_compute. discriminate.
Defined.

(** The container-scope rule check gives no error on a set of rules
    exactly when every container lies within them. *)
Lemma container_checkRule_None (R : string → string → Quantity → Prop) a pod :
  (∀ ruleType name quantity,
     R ruleType name quantity →
     firstError (container.checkRule a pod ruleType name quantity) (Spec_Containers pod)
     = None)
  ↔ ∀ container,
      container ∈ Spec_Containers pod →
      (∀ q, R "Max" "Memory" q → Value (Memory container) <= Value q)
      ∧ (∀ q, R "Max" "CPU" q → MilliValue (CPU container) <= MilliValue q)
      ∧ (∀ q, R "Min" "Memory" q → Value q <= Value (Memory container))
      ∧ (∀ q, R "Min" "CPU" q → MilliValue q <= MilliValue (CPU container)).
Proof.
  split.
  - intros H container Hin.
    repeat split; intros q Hq; specialize (H _ _ _ Hq);
      rewrite firstError_None in H; specialize (H container Hin);
      unfold container.checkRule in H; simpl in H.
    + by destruct (Z.ltb_spec (Value q) (Value (Memory container))).
    + by destruct (Z.ltb_spec (MilliValue q) (MilliValue (CPU container))).
    + by destruct (Z.ltb_spec (Value (Memory container)) (Value q)).
    + by destruct (Z.ltb_spec (MilliValue (CPU container)) (MilliValue q)).
  - intros H ruleType name q Hq. apply firstError_None. intros container Hin.
    destruct (H container Hin) as (Hmax_mem & Hmax_cpu & Hmin_mem & Hmin_cpu).
    unfold container.checkRule. repeat case_decide; subst; try done.
    + specialize (Hmax_mem q Hq).
      destruct (Z.ltb_spec (Value q) (Value (Memory container))); [lia|done].
    + specialize (Hmax_cpu q Hq).
      destruct (Z.ltb_spec (MilliValue q) (MilliValue (CPU container))); [lia|done].
    + specialize (Hmin_cpu q Hq).
      destruct (Z.ltb_spec (MilliValue (CPU container)) (MilliValue q)); [lia|done].
    + specialize (Hmin_mem q Hq).
      destruct (Z.ltb_spec (Value (Memory container)) (Value q)); [lia|done].
Qed.

(** X12.  On a create or an update of a pod, the container-scope
    admission function returns without touching the world and without
    reporting dirty, and it returns no error exactly when every container of
    the pod lies within the Container rules of the controller's status:
    memory and milli-CPU at most each Max that is set and at least each Min
    that is set.  A pod without containers is always accepted. *)
Theorem container_admission_bounds (o : RangeOrder) (a : Attributes)
    (input : ResourceController) (observation : ResourceObservation) (pod : Pod)
    (w : World) :
  let rule := allowedRule (heap w) (Status input) "Container" in
  admissible o →
  GetOperation a ≠ "DELETE" →
  GetKind a = "pods" →
  GetObject a = PodObject pod →
  ∃ err,
    container.admissionFunc o a input observation w = Returns (false, err) w
    ∧ (err = None
       ↔ ∀ container,
           container ∈ Spec_Containers pod →
           (∀ q, rule "Max" "Memory" = Some q → Value (Memory container) <= Value q)
           ∧ (∀ q, rule "Max" "CPU" = Some q →
                MilliValue (CPU container) <= MilliValue q)
           ∧ (∀ q, rule "Min" "Memory" = Some q → Value q <= Value (Memory container))
           ∧ (∀ q, rule "Min" "CPU" = Some q →
                MilliValue q <= MilliValue (CPU container))).
Proof.
  intros rule Ho Hop Hk Hobj. unfold container.admissionFunc.
  rewrite Hk, Hobj. rewrite decide_False by done. rewrite decide_False by (by intros H).
  simpl. subst rule. unfold allowedRule. simpl.
  destruct (foldl addGroup ∅ (elems (Allowed (Status input)))
            !! ResourceControllerGroupByContainer) as [groupRules|] eqn:Hg.
  - eexists. split; [reflexivity|].
    rewrite (ranged_rules_None o (heap w) groupRules
               (λ ruleType name quantity,
                  firstError (container.checkRule a pod ruleType name quantity)
                             (Spec_Containers pod))) by done.
    rewrite (container_checkRule_None
               (λ ruleType name quantity,
                  readMap (heap w) (default None (groupRules !! ruleType)) name
                  = Some quantity)).
    by rewrite !(rules_present _ "Container" groupRules _ Hg).
  - exists None. split; [reflexivity|]. split; [|done]. intros _ container _.
    rewrite !(rules_absent _ "Container" _ Hg). by repeat split.
Qed.

Lemma container_admission_bounds_witness :
  let a := sample.createPod [sample.container 50 0] in
  let c := sample.controller "Container" "Min" in
  let w := sample.world [("CPU", NewMilliQuantity 100 DecimalSI)] [] in
  ∃ e, container.admissionFunc keyOrder a c (snapshot c) w = Returns (false, Some e) w.
Proof.
  intros a c w.
  destruct (container_admission_bounds keyOrder a c (snapshot c)
              (sample.pod [sample.container 50 0]) w keyOrder_admissible)
    as (err & H & Hiff); [discriminate | reflexivity | reflexivity |].
  destruct err as [e|]; [by exists e|]. exfalso.
  destruct (proj1 Hiff eq_refl (sample.container 50 0)) as (_ & _ & _ & Hmin);
    [apply list_elem_of_here|].
  specialize (Hmin (NewMilliQuantity 100 DecimalSI) eq_refl).
  vm_compute in Hmin. by apply Hmin.
Defined.

(** X13.  On a create or an update of a replication controller, the
    replication-controller-scope admission function returns without
    touching the world and without reporting dirty, and it returns no error
    exactly when the replica count is at most the (ReplicationController,
    Max, Replicas) rule of the controller's status, if there is one. *)
Theorem replicas_admission_bound (o : RangeOrder) (a : Attributes)
    (input : ResourceController) (observation : ResourceObservation)
    (replicationController : ReplicationController) (w : World) :
  admissible o →
  GetOperation a ≠ "DELETE" →
  GetKind a = "replicationControllers" →
  GetObject a = ReplicationControllerObject replicationController →
  ∃ err,
    replicationcontroller.admissionFunc o a input observation w = Returns (false, err) w
    ∧ (err = None
       ↔ ∀ q, allowedRule (heap w) (Status input) "ReplicationController" "Max" "Replicas"
              = Some q →
              wrap64 (Spec_Replicas replicationController) <= Value q).
Proof.
  intros Ho Hop Hk Hobj. unfold replicationcontroller.admissionFunc.
  rewrite Hk, Hobj. rewrite decide_False by done. rewrite decide_False by (by intros H).
  simpl. unfold allowedRule. simpl.
  destruct (foldl addGroup ∅ (elems (Allowed (Status input)))
            !! ResourceControllerGroupByReplicationController) as [groupRules|] eqn:Hg.
  - eexists. split; [reflexivity|].
    rewrite (ranged_rules_None o (heap w) groupRules) by done.
    rewrite (rules_present _ "ReplicationController" groupRules _ Hg).
    unfold replicationcontroller.checkRule. split.
    + intros H q Hq. specialize (H _ _ _ Hq). simpl in H.
      by destruct (Z.ltb_spec (Value q) (wrap64 (Spec_Replicas replicationController))).
    + intros H ruleType name q Hq. repeat case_decide; subst; try done.
      specialize (H q Hq).
      destruct (Z.ltb_spec (Value q) (wrap64 (Spec_Replicas replicationController)));
        [lia|done].
  - exists None. split; [reflexivity|]. split; [|done]. intros _.
    by rewrite !(rules_absent _ "ReplicationController" _ Hg).
Qed.

Lemma replicas_admission_bound_witness :
  let rc := {| ReplicationController_Name := "rc"; Spec_Replicas := 4 |} in
  let a := sample.attributes "UPDATE" "replicationControllers"
             (ReplicationControllerObject rc) in
  let c := sample.controller "ReplicationController" "Max" in
  let w := sample.world [("Replicas", NewQuantity 3 DecimalSI)] [] in
  ∃ e, replicationcontroller.admissionFunc keyOrder a c (snapshot c) w
       = Returns (false, Some e) w.
Proof.
  intros rc a c w.
  destruct (replicas_admission_bound keyOrder a c (snapshot c) rc w keyOrder_admissible)
    as (err & H & Hiff); [discriminate | reflexivity | reflexivity |].
  destruct err as [e|]; [by exists e|]. exfalso.
  pose proof (proj1 Hiff eq_refl (NewQuantity 3 DecimalSI) eq_refl) as Hle.
  vm_compute in Hle. by apply Hle.
Defined.

(** ** More on the namespace admission function *)

(** X14.  The namespace-scope function only acts on a CREATE of one of
    the three kinds it processes: for every other operation (an UPDATE as
    much as a DELETE) and for every other kind it returns [(false, nil)]
    and changes nothing, whatever the limits and the allocation are. *)
Theorem namespace_only_create (a : Attributes) (input : ResourceController)
    (observation : ResourceObservation) (w : World) :
  GetOperation a ≠ "CREATE" ∨ namespace.kindsToProcess !! GetKind a = None →
  namespace.admissionFunc a input observation w = Returns (false, None) w.
Proof.
  intros H. unfold namespace.admissionFunc.
  case_decide; [done|].
  destruct (namespace.kindsToProcess !! GetKind a) eqn:Hk; [|done].
  destruct H as [H|H]; [|done]. simpl.
  destruct (_ !! ResourceControllerGroupByNamespace); [|done].
  by rewrite decide_False.
Qed.

Lemma namespace_only_create_witness :
  let a := sample.attributes "UPDATE" "pods" (PodObject (sample.pod [])) in
  namespace.admissionFunc a sample.namespaceMax (snapshot sample.namespaceMax)
    sample.podsFullWorld
  = Returns (false, None) sample.podsFullWorld.
Proof.
  intros a. apply (namespace_only_create a). left. discriminate.
Defined.




(** X16.  The namespace CPU check refuses a pod as soon as the allocation
    plus the pod's own milli-CPU reaches the limit: with no limit on the
    number of pods, a CPU limit and an allocation such that the sum is
    greater than or equal to the limit make the function return the CPU
    error and change nothing.  In particular a namespace whose allocation
    equals its limit admits no pod at all, not even one that asks for no
    CPU. *)
Theorem namespace_cpu_at_limit (a : Attributes) (input : ResourceController)
    (observation : ResourceObservation) (pod : Pod) (cpuLimit cpuObservation : Quantity)
    (w : World) :
  GetOperation a = "CREATE" →
  GetKind a = "pods" →
  GetObject a = PodObject pod →
  allowedRule (heap w) (Status input) "Namespace" "Max" "Pods" = None →
  allowedRule (heap w) (Status input) "Namespace" "Max" "CPU" = Some cpuLimit →
  allocatedRule (heap w) (Status input) "Namespace" "Max" "CPU" = Some cpuObservation →
  MilliValue cpuLimit <= add64 (MilliValue cpuObservation) (podUsageCPU pod) →
  namespace.admissionFunc a input observation w
  = Returns (false,
             Some (Forbidden "pods" (Pod_Name pod)
                     (LimitCPU cpuLimit (Namespace (RC_Meta input))))) w.
Proof.
  intros Hop Hk Hobj Hpods HL HA Hle.
  assert (namespace.kindToMaxKindResourceName !! GetKind a = Some "Pods") as Hrn
    by (by rewrite Hk).
  rewrite (admissionFunc_create a input observation Hop
             (kindsToProcess_kind _ _ Hrn) (allowedRule_group _ _ _ _ HL)).
  rewrite (kindBlock_no_limit _ _ _ _ _ _ "Pods") by done.
  unfold namespace.podsBlock. rewrite Hk, Hobj. unbind.
  change (readMap (heap w)
            (rules (foldl addGroup ∅ (elems (Allowed (Status input))))
               ResourceControllerGroupByNamespace ResourceControllerRuleTypeMax) "CPU"
          = Some cpuLimit) in HL.
  change (readMap (heap w)
            (rules (foldl addGroup ∅ (elems (Allocated (Status input))))
               ResourceControllerGroupByNamespace ResourceControllerRuleTypeMax) "CPU"
          = Some cpuObservation) in HA.
  rewrite HL. simpl. rewrite HA. fold (podUsageCPU pod).
  by destruct (Z.leb_spec (MilliValue cpuLimit)
                 (add64 (MilliValue cpuObservation) (podUsageCPU pod))); [|lia].
Qed.

Lemma namespace_cpu_at_limit_witness :
  let a := sample.createPod [] in
  let c := sample.namespaceMax in
  let w := sample.world [("CPU", NewMilliQuantity 1000 DecimalSI)]
                        [("CPU", NewMilliQuantity 1000 DecimalSI)] in
  namespace.admissionFunc a c (snapshot c) w
  = Returns (false,
             Some (Forbidden "pods" "p" (LimitCPU (NewMilliQuantity 1000 DecimalSI) "ns")))
      w.
Proof.
  intros a c w.
  apply (namespace_cpu_at_limit a c (snapshot c) (sample.pod [])
           (NewMilliQuantity 1000 DecimalSI) (NewMilliQuantity 1000 DecimalSI) w);
    reflexivity.
Defined.

(** ** Admit as a whole *)

(** Each built-in function lets a DELETE through. *)
Lemma builtin_delete o f a controller observation w :
  f ∈ (builtins o).*2 →
  GetOperation a = "DELETE" →
  f a controller observation w = Returns (false, None) w.
Proof.
  simpl. rewrite !elem_of_cons, elem_of_nil.
  intros [-> | [-> | [-> | [-> | []]]]] Hop.
  - unfold namespace.admissionFunc. rewrite Hop. by case_decide.
  - unfold pod.admissionFunc. rewrite Hop. by case_decide.
  - unfold container.admissionFunc. rewrite Hop. by case_decide.
  - unfold replicationcontroller.admissionFunc. rewrite Hop. by case_decide.
Qed.

Lemma forEach_None {A} (body : A → M (option Error)) (l : list A) w :
  (∀ x, x ∈ l → body x w = Returns None w) →
  forEach body l w = Returns None w.
Proof.
  induction l as [|x l IH]; intros H; simpl; [done|].
  unfold mbind, M_bind, bind. rewrite H by apply list_elem_of_here.
  apply IH. intros y Hy. by apply H, list_elem_of_further.
Qed.

(** X17.  A DELETE is never refused by the limits themselves: with
    built-in admission functions, in any number and order, and a listing
    of the controllers that succeeds, [Admit] returns no error whatever
    the controllers hold, hands no observation to the store and leaves the
    heap as it was.  (The allocation of the namespace is therefore not
    lowered by a deletion; only the reconciler does that.) *)
Theorem admit_delete (o : RangeOrder) (l : limits) (a : Attributes)
    (list : ResourceControllerList) (w : World) :
  (∀ f, f ∈ admissionFuncs l → f ∈ (builtins o).*2) →
  GetOperation a = "DELETE" →
  ResourceControllers_List (client l) (GetNamespace a) = (Some list, None) →
  Admit l a w = Returns None w.
Proof.
  intros Hb Hop Hl. unfold Admit. rewrite Hl.
  apply forEach_None. intros controller _.
  unfold admitController, mbind, M_bind, bind.
  rewrite (invoke_keeps a controller (snapshot controller) (admissionFuncs l) w); [done|].
  intros f Hf. apply (builtin_delete o); [by apply Hb | done].
Qed.

Lemma admit_delete_witness :
  let a := sample.attributes "DELETE" "pods" (PodObject (sample.pod [])) in
  Admit sample.allFour a sample.podsFullWorld = Returns None sample.podsFullWorld.
Proof.
  intros a.
  apply (admit_delete keyOrder sample.allFour a {| Items := [sample.namespaceMax] |}).
  - intros f Hf. simpl in Hf |- *. rewrite !elem_of_cons in Hf |- *. tauto.
  - reflexivity.
  - reflexivity.
Defined.

(** One round of [Admit] hands at most the snapshot of its controller to
    the store. *)
Lemma admitController_step l a name controller w r w' :
  (∀ f, f ∈ admissionFuncs l → quiet (f a controller (snapshot controller))) →
  admitController l a name controller w = Returns r w' →
  logged w' = logged w
  ∧ (created w' = created w
     ∨ created w' = (created w ++ [(snapshot controller, heap w')])%list).
Proof.
  unfold admitController. intros Hq H.
  unfold mbind, M_bind, bind in H.
  destruct (invoke _ _ _ _ _ w) as [[dirty [e|]] w1|] eqn:Hi; try done.
  - unfold mret, M_ret, ret in H. inversion H; subst.
    apply (quiet_invoke _ _ _ _ Hq) in Hi as [? ?]. by split; [|left].
  - apply (quiet_invoke _ _ _ _ Hq) in Hi as [Hc Hl].
    destruct dirty.
    + unfold Create in H.
      destruct (ResourceObservations_Create _ _ _ _);
        unfold mret, M_ret, ret in H; inversion H; subst; simpl;
        (split; [done|]); right; by rewrite Hc.
    + unfold mret, M_ret, ret in H. inversion H; subst. by split; [|left].
Qed.

Lemma forEach_admit l a name :
  (∀ controller f, f ∈ admissionFuncs l → quiet (f a controller (snapshot controller))) →
  ∀ items w r w',
    forEach (admitController l a name) items w = Returns r w' →
    logged w' = logged w
    ∧ ∃ (new : list (ResourceObservation * Heap)) (handed : list ResourceController),
        created w' = (created w ++ new)%list
        ∧ new.*1 = snapshot <$> handed
        ∧ handed `sublist_of` items.
Proof.
  intros Hq. induction items as [|c items IH]; intros w r w' H; simpl in H.
  - unfold mret, M_ret, ret in H. inversion H; subst. split; [done|].
    exists [], []. by rewrite app_nil_r.
  - unfold mbind, M_bind, bind in H.
    destruct (admitController l a name c w) as [[e|] w1|] eqn:Hc; try done.
    + unfold mret, M_ret, ret in H. inversion H; subst.
      apply admitController_step in Hc as [Hl [Hc|Hc]]; [| |by apply Hq].
      * split; [done|]. exists [], []. rewrite app_nil_r.
        split; [done|]. split; [done|]. apply sublist_nil_l.
      * split; [done|]. exists [(snapshot c, heap w')], [c].
        split; [done|]. split; [done|]. apply sublist_skip, sublist_nil_l.
    + apply admitController_step in Hc as [Hl Hc]; [|by apply Hq].
      apply IH in H as (Hl' & new & handed & Hn & Hs & Hsub).
      split; [congruence|].
      destruct Hc as [Hc|Hc]; rewrite Hc in Hn.
      * exists new, handed. split; [done|]. split; [done|]. by apply sublist_cons.
      * exists ((snapshot c, heap w1) :: new), (c :: handed).
        split; [by rewrite Hn, <- app_assoc|].
        split; [by rewrite !fmap_cons, Hs|]. by apply sublist_skip.
Qed.

(** X18.  What [Admit] hands to the store: with built-in admission
    functions, a call of [Admit] that returns (with or without an error)
    has added to the observations created only snapshots of controllers of
    the listing, in the order of the listing and at most one for each
    controller; it withdraws none and logs nothing. *)
Theorem admit_observations (o : RangeOrder) (l : limits) (a : Attributes)
    (w : World) (r : option Error) (w' : World) :
  (∀ f, f ∈ admissionFuncs l → f ∈ (builtins o).*2) →
  Admit l a w = Returns r w' →
  logged w' = logged w
  ∧ ∃ (new : list (ResourceObservation * Heap)) (handed : list ResourceController),
      created w' = (created w ++ new)%list
      ∧ new.*1 = snapshot <$> handed
      ∧ handed `sublist_of`
          default [] (Items <$> (ResourceControllers_List (client l) (GetNamespace a)).1).
Proof.
  intros Hb H. unfold Admit in H.
  destruct (ResourceControllers_List _ _) as [list [e|]] eqn:Hl.
  - unfold mret, M_ret, ret in H. inversion H; subst. split; [done|].
    exists [], []. rewrite app_nil_r. split; [done|]. split; [done|]. apply sublist_nil_l.
  - destruct list as [list|]; [|done]. simpl.
    apply (forEach_admit l a) in H; [done|].
    intros controller f Hf. by eapply builtins_quiet, Hb.
Qed.

Lemma admit_observations_witness :
  let a := sample.createPod [] in
  ∃ w' (new : list (ResourceObservation * Heap)) (handed : list ResourceController),
    after (Admit sample.allFour a sample.podsWorld) = Some w'
    ∧ logged w' = logged sample.podsWorld
    ∧ created w' = (created sample.podsWorld ++ new)%list
    ∧ new.*1 = snapshot <$> handed
    ∧ handed `sublist_of` [sample.namespaceMax].
Proof.
  intros a.
  destruct (Admit sample.allFour a sample.podsWorld) as [r w'|] eqn:H;
    [|vm_compute in H; discriminate].
  destruct (admit_observations keyOrder sample.allFour a sample.podsWorld r w')
    as (Hl & new & handed & Hc & Hs & Hsub); [|exact H|].
  { intros f Hf. simpl in Hf |- *. rewrite !elem_of_cons in Hf |- *. tauto. }
  by exists w', new, handed.
Defined.

Lemma forEach_app {A} (body : A → M (option Error)) (pre post : list A) w w1 :
  forEach body pre w = Returns None w1 →
  forEach body (pre ++ post) w = forEach body post w1.
Proof.
  revert w. induction pre as [|x pre IH]; intros w H; simpl in *.
  - unfold mret, M_ret, ret in H. by inversion H.
  - unfold mbind, M_bind, bind in *.
    destruct (body x w) as [[e|] w2|]; try done. by apply IH.
Qed.

(** X19.  [Admit] stops at the first controller that refuses the request:
    when the rounds for the controllers listed before [controller] end
    without error in the world [w1], and the round for [controller] ends
    there with the error [e] in the world [w2], then [Admit] returns [e]
    and leaves [w2].  The controllers listed after it are not consulted,
    and what the earlier rounds did (the entries they wrote, the
    observations they handed over) is not taken back. *)
Theorem admit_first_refusal (l : limits) (a : Attributes)
    (listing : ResourceControllerList)
    (pre post : list ResourceController) (controller : ResourceController)
    (e : Error) (w w1 w2 : World) :
  ResourceControllers_List (client l) (GetNamespace a) = (Some listing, None) →
  Items listing = (pre ++ controller :: post)%list →
  forEach (admitController l a (requestName a)) pre w = Returns None w1 →
  admitController l a (requestName a) controller w1 = Returns (Some e) w2 →
  Admit l a w = Returns (Some e) w2.
Proof.
  intros Hl Hitems Hpre Hc. unfold Admit. rewrite Hl, Hitems.
  fold (requestName a). rewrite (forEach_app _ _ _ _ _ Hpre). simpl.
  unfold mbind, M_bind, bind. by rewrite Hc.
Qed.

Lemma admit_first_refusal_witness :
  let l := sample.plugin (sample.rest [sample.namespaceMax; sample.namespaceMax] [])
             (admissionFuncs sample.allFour) in
  let a := sample.createPod [] in
  ∃ e w2,
    Admit l a sample.podsWorld = Returns (Some e) w2
    ∧ length (created w2) = 1%nat.
Proof.
  intros l a.
  destruct (forEach (admitController l a (requestName a)) [sample.namespaceMax]
              sample.podsWorld) as [[e1|] w1|] eqn:Hpre;
    [vm_compute in Hpre; discriminate | | vm_compute in Hpre; discriminate].
  destruct (admitController l a (requestName a) sample.namespaceMax w1)
    as [[e|] w2|] eqn:Hc.
  - exists e, w2. split.
    + apply (admit_first_refusal l a
               {| Items := [sample.namespaceMax; sample.namespaceMax] |}
               [sample.namespaceMax] [] sample.namespaceMax e sample.podsWorld w1 w2);
        [reflexivity | reflexivity | exact Hpre | exact Hc].
    + vm_compute in Hpre. inversion Hpre; subst w1.
      vm_compute in Hc. inversion Hc. reflexivity.
  - exfalso. vm_compute in Hpre. inversion Hpre; subst w1.
    vm_compute in Hc. discriminate.
  - exfalso. vm_compute in Hpre. inversion Hpre; subst w1.
    vm_compute in Hc. discriminate.
Defined.

(** ** The snapshot Admit works on *)

(** X20.  The observation [Admit] builds for a controller carries the
    controller's name, namespace and resource version, the controller's
    allowed groups unchanged, and exactly as many allocated groups as there
    are allowed groups: the allocated groups of the controller in order
    (the same groups, so the same maps), cut off after that many, and
    filled up with zero groups (no scope, no rule type, nil map) when the
    controller has fewer. *)
Theorem snapshot_groups (controller : ResourceController) :
  let n := length (elems (Allowed (Status controller))) in
  let observation := snapshot controller in
  Obs_Meta observation = metaOf controller
  ∧ elems (Allowed (Obs_Status observation)) = elems (Allowed (Status controller))
  ∧ length (elems (Allocated (Obs_Status observation))) = n
  ∧ ∀ i, (i < n)%nat →
      elems (Allocated (Obs_Status observation)) !! i
      = Some (default zeroGroup (elems (Allocated (Status controller)) !! i)).
Proof.
  intros n observation. split; [done|]. split; [apply copy_make|].
  subst observation. unfold snapshot. simpl. fold n.
  set (src := elems (Allocated (Status controller))).
  unfold copy, make. rewrite length_replicate. split.
  - rewrite length_app, length_take, length_drop, length_replicate. lia.
  - intros i Hi. destruct (decide (i < length src)%nat) as [Hlt|Hge].
    + rewrite lookup_app_l by (rewrite length_take; lia).
      rewrite lookup_take_lt by lia.
      destruct (src !! i) eqn:E; [done|].
      apply lookup_ge_None in E. lia.
    + rewrite lookup_app_r by (rewrite length_take; lia).
      rewrite length_take, lookup_drop.
      rewrite (proj2 (lookup_ge_None src i)) by lia. simpl.
      apply lookup_replicate_2. lia.
Qed.

(** ** What a sync of the reconciler does and does not do *)

(** [dirty], once set, stays set through the loop over the names. *)
Lemma observeNames_dirty observerFuncs controller prev group latest :
  ∀ names store dirty w r w',
    manager.observeNames observerFuncs controller prev group latest names store dirty w
    = Returns r w' →
    dirty = true → r.1 = true.
Proof.
  induction names as [|name names IH]; intros store dirty w r w' H Hd; simpl in H.
  - unfold mret, M_ret, ret in H. by inversion H; subst.
  - destruct (observerFuncs !! _) as [f|]; [|by eapply IH].
    destruct (f store (Namespace (RC_Meta controller))) as [store1 [quantity [e|]]].
    + unfold mret, M_ret, ret in H. by inversion H; subst.
    + destruct quantity as [quantity|]; [|done].
      unfold mbind, M_bind, bind in H.
      destruct (writeMap _ _ _ w) as [[] w1|]; [|done]. simpl in H.
      eapply IH; [exact H|]. by rewrite Hd.
Qed.

Lemma observeGroups_dirty o observerFuncs controller prev :
  ∀ groups index allocated dirty w r w',
    manager.observeGroups o observerFuncs controller prev index groups allocated dirty w
    = Returns r w' →
    dirty = true → r.1.2 = true.
Proof.
  induction groups as [|group groups IH]; intros index allocated dirty w r w' H Hd;
    simpl in H.
  - unfold mret, M_ret, ret in H. by inversion H; subst.
  - unfold mbind, M_bind, bind, getHeap, putHeap in H. simpl in H.
    destruct (manager.observeNames _ _ _ _ _ _ _ _ _) as [[dirty1 err] w2|] eqn:Hn;
      [|done].
    apply observeNames_dirty in Hn; [|done]. simpl in Hn. subst dirty1.
    destruct err as [e|].
    + unfold mret, M_ret, ret in H. by inversion H; subst.
    + by eapply IH.
Qed.




Lemma preserved_refl h : preserved h h.
Proof. by intros l. Qed.

Lemma preserved_trans h1 h2 h3 : preserved h1 h2 → preserved h2 h3 → preserved h1 h3.
Proof.
  intros H1 H2 l Hl. rewrite H2, H1; [done..|]. by rewrite H1.
Qed.

(** The loop over the names writes into the map of the latest observation
    and into no other. *)
Lemma observeNames_elsewhere observerFuncs controller prev group latest l :
  Resources latest = Some l →
  ∀ names store dirty w r w',
    manager.observeNames observerFuncs controller prev group latest names store dirty w
    = Returns r w' →
    ∀ l', l' ≠ l → heap w' !! l' = heap w !! l'.
Proof.
  intros Hl. induction names as [|name names IH]; intros store dirty w r w' H l' Hne;
    simpl in H.
  - unfold mret, M_ret, ret in H. by inversion H; subst.
  - destruct (observerFuncs !! _) as [f|]; [|by eapply IH].
    destruct (f store (Namespace (RC_Meta controller))) as [store1 [quantity [e|]]].
    + unfold mret, M_ret, ret in H. by inversion H; subst.
    + destruct quantity as [quantity|]; [|done].
      rewrite Hl in H. unfold mbind, M_bind, bind in H.
      rewrite writeMap_Returns in H. simpl in H.
      rewrite (IH _ _ _ _ _ H l' Hne). simpl. by apply lookup_insert_ne.
Qed.

Lemma observeGroups_preserved o observerFuncs controller prev :
  ∀ groups index allocated dirty w r w',
    manager.observeGroups o observerFuncs controller prev index groups allocated dirty w
    = Returns r w' →
    preserved (heap w) (heap w').
Proof.
  induction groups as [|group groups IH]; intros index allocated dirty w r w' H;
    simpl in H.
  - unfold mret, M_ret, ret in H. inversion H; subst. apply preserved_refl.
  - unfold mbind, M_bind, bind, getHeap, putHeap in H. simpl in H.
    set (l := fresh (dom (heap w))) in H.
    set (latest := {| GroupBy := GroupBy group; RuleType := RuleType group;
                      Resources := Some l |}) in H.
    destruct (manager.observeNames _ _ _ _ _ _ _ _ _) as [[dirty1 err] w2|] eqn:Hn;
      [|done].
    pose proof (observeNames_elsewhere _ _ _ _ latest l eq_refl _ _ _ _ _ _ Hn) as He.
    simpl in He.
    assert (preserved (heap w) (heap w2)) as Hp.
    { intros l' Hl'. assert (l' ≠ l) as Hne.
      { intros ->. apply (is_fresh (dom (heap w))). by apply elem_of_dom. }
      rewrite He by done. by apply lookup_insert_ne. }
    destruct err as [e|].
    + unfold mret, M_ret, ret in H. by inversion H; subst.
    + apply IH in H. by eapply preserved_trans.
Qed.

(** X21.  A controller that has never been observed (its Status.Allowed
    or its Status.Allocated is nil) is dirty from the start: whenever the
    evaluators of a sync all return without error, [dirty] is set and the
    sync hands the observation to the store, whether or not any observed
    quantity differs from what the status holds. *)
Theorem sync_first_observation (o : RangeOrder) (kubeClient : Interface)
    (observerFuncs : gmap string ObserverFunc) (controller : ResourceController)
    (w : World) (observation : ResourceObservation) (dirty : bool) (w1 : World) :
  Allowed (Status controller) = None ∨ Allocated (Status controller) = None →
  manager.observe o observerFuncs controller w = Returns (observation, dirty, None) w1 →
  dirty = true
  ∧ manager.syncResourceController o kubeClient observerFuncs controller w
    = Create kubeClient (Namespace (RC_Meta controller)) observation w1.
Proof.
  intros Hnil Hobs.
  assert (dirty = true) as ->.
  { unfold manager.observe in Hobs. simpl in Hobs.
    unfold mbind, M_bind, bind in Hobs.
    destruct (manager.observeGroups _ _ _ _ _ _ _ _ _) as [[[allocated d] err] w2|] eqn:Hg;
      [|done].
    apply observeGroups_dirty in Hg.
    - simpl in Hg. unfold mret, M_ret, ret in Hobs. inversion Hobs; by subst.
    - destruct Hnil as [-> | ->]; [done|]. apply orb_true_r. }
  split; [done|].
  unfold manager.syncResourceController, mbind, M_bind, bind. rewrite Hobs.
  unfold manager.observe in Hobs. simpl in Hobs. unfold mbind, M_bind, bind in Hobs.
  destruct (manager.observeGroups _ _ _ _ _ _ _ _ _) as [[[allocated d] err] w2|];
    [|done].
  unfold mret, M_ret, ret in Hobs. by inversion Hobs.
Qed.

Lemma sync_first_observation_witness :
  let c := Client (sample.rest [] []) in
  let controller :=
    {| RC_Meta := sample.meta;
       Spec := Spec sample.namespaceMax;
       Status := {| Allowed := None; Allocated := None |} |} in
  let sync :=
    manager.syncResourceController keyOrder c (manager.bindAll [observer.observer c])
      controller sample.podsWorld in
  length <$> (created <$> after sync) = Some 1%nat.
Proof.
  intros c controller sync.
  destruct (manager.observe keyOrder (manager.bindAll [observer.observer c]) controller
              sample.podsWorld) as [[[observation dirty] [e|]] w1|] eqn:Hobs.
  - vm_compute in Hobs. discriminate.
  - destruct (sync_first_observation keyOrder c _ controller _ observation dirty w1
                (or_introl eq_refl) Hobs) as [-> Hs].
    subst sync. rewrite Hs. unfold Create. simpl.
    vm_compute in Hobs. inversion Hobs. reflexivity.
  - vm_compute in Hobs. discriminate.
Defined.



(** X23.  A sync never writes into a map that exists when it starts:
    every shared map of the heap, those of the controller's Spec and Status
    among them, holds after the sync what it held before; the observation
    is built in maps of its own.  This holds for every sync that returns,
    with or without an error. *)
Theorem sync_preserves_maps (o : RangeOrder) (kubeClient : Interface)
    (observerFuncs : gmap string ObserverFunc) (controller : ResourceController)
    (w : World) (r : option Error) (w' : World) :
  manager.syncResourceController o kubeClient observerFuncs controller w = Returns r w' →
  preserved (heap w) (heap w')
  ∧ ∀ m name, is_Some (readMap (heap w) m name) →
              readMap (heap w') m name = readMap (heap w) m name.
Proof.
  intros H.
  assert (preserved (heap w) (heap w')) as Hp.
  { unfold manager.syncResourceController, manager.observe in H.
    simpl in H. unfold mbind, M_bind, bind in H.
    destruct (manager.observeGroups _ _ _ _ _ _ _ _ _)
      as [[[allocated dirty] err] w2|] eqn:Hg; [|done].
    apply observeGroups_preserved in Hg. simpl in H.
    destruct err as [e|].
    { unfold mret, M_ret, ret in H. by inversion H; subst. }
    destruct dirty.
    - unfold Create in H. by inversion H; subst.
    - unfold mret, M_ret, ret in H. by inversion H; subst. }
  split; [done|].
  intros [l|] name Hs; [|done]. simpl in *. unfold mapAt in *.
  destruct (heap w !! l) as [m|] eqn:Hl.
  - by rewrite (Hp l), Hl by (by rewrite Hl).
  - simpl in Hs. rewrite lookup_empty in Hs. by destruct Hs.
Qed.

Lemma sync_preserves_maps_witness :
  let c := Client sample.onePodStore in
  let sync :=
    manager.syncResourceController keyOrder c (manager.bindAll [observer.observer c])
      sample.namespaceMax sample.podsWorld in
  ∃ r w',
    sync = Returns r w'
    ∧ readMap (heap w') (Some 1%positive) "Pods" = Some (NewQuantity 3 DecimalSI)
    ∧ readMap (heap w') (Some 2%positive) "Pods" = Some (NewQuantity 2 DecimalSI).
Proof.
  intros c sync. subst sync.
  destruct (manager.syncResourceController keyOrder c
              (manager.bindAll [observer.observer c]) sample.namespaceMax sample.podsWorld)
    as [r w'|] eqn:H; [|vm_compute in H; discriminate].
  exists r, w'. split; [reflexivity|].
  destruct (sync_preserves_maps keyOrder c _ _ _ r w' H) as [_ Hr].
  split.
  - rewrite (Hr (Some 1%positive) "Pods") by (eexists; reflexivity). reflexivity.
  - rewrite (Hr (Some 2%positive) "Pods") by (eexists; reflexivity). reflexivity.
Defined.

(** ** A tick of the reconciler *)






(** ** What the Min evaluators compute *)

Lemma containerMin_unseeded (f : Container → Z) (items : list Pod) :
  seeded items = false →
  forRange
    (λ val i item,
       forRange
         (λ val j container,
            if (f container <? val) || (Nat.eqb i 0 && Nat.eqb j 0)
            then f container else val)
         val (Spec_Containers item))
    0 items
  = foldl Z.min 0 (f <$> containersOf items).
Proof.
  destruct items as [|[n [|container containers]] rest]; [done| |done].
  intros _. unfold forRange at 1. cbn [rangeFrom]. rewrite containerMin_outer.
  unfold forRange. cbn [rangeFrom Spec_Containers]. by rewrite containersOf_cons.
Qed.

(** X25.  What the four Min evaluators return.  The pod-scope ones return
    the minimum of the per-pod sums: the first pod seeds it, and an empty
    listing gives 0.  The container-scope ones return the minimum over all
    containers of the listing only when the first pod of the listing has a
    container; otherwise nothing seeds the running minimum, which starts at
    0 and can only go down, so the result is the least of 0 and the
    containers' values (0 whenever no container has a negative value). *)
Theorem min_evaluators (items : list Pod) :
  let cpu := (λ container, MilliValue (CPU container)) <$> containersOf items in
  let memory := (λ container, Value (Memory container)) <$> containersOf items in
  observer.podMinCPU items
  = NewMilliQuantity (minimum (observer.podCPU <$> items)) DecimalSI
  ∧ observer.podMinMemory items
    = NewQuantity (minimum (observer.podMemory <$> items)) DecimalSI
  ∧ observer.containerMinCPU items
    = NewMilliQuantity (if seeded items then minimum cpu else foldl Z.min 0 cpu) DecimalSI
  ∧ observer.containerMinMemory items
    = NewQuantity (if seeded items then minimum memory else foldl Z.min 0 memory)
        DecimalSI
  ∧ (seeded items = false → Forall (λ x, 0 <= x) cpu → foldl Z.min 0 cpu = 0).
Proof.
  intros cpu memory.
  split; [apply podMin_minimum|]. split; [apply podMin_minimum|].
  unfold observer.containerMinCPU, observer.containerMinMemory.
  destruct (seeded items) eqn:Hs.
  - destruct items as [|item rest]; [done|].
    assert (Spec_Containers item ≠ []) as Hne.
    { simpl in Hs. by destruct (Spec_Containers item). }
    rewrite (containerMin_loop (λ container, MilliValue (CPU container))) by done.
    rewrite (containerMin_loop (λ container, Value (Memory container))) by done.
    done.
  - rewrite (containerMin_unseeded (λ container, MilliValue (CPU container))) by done.
    rewrite (containerMin_unseeded (λ container, Value (Memory container))) by done.
    split; [done|]. split; [done|]. intros _.
    generalize cpu. clear. intros l Hl.
    induction Hl as [|x l Hx Hl IH]; [done|]. simpl.
    by replace (Z.min 0 x) with 0 by lia.
Qed.

(** ** The registry of observers *)

Lemma InitObservers_fold (client : Interface) (l : list (string * Factory)) :
  ∀ acc : list Observer,
    (∀ observers,
       foldl (λ (observers : option (list Observer)) '(_, factory),
                observers ← observers;
                match factory client with
                | inl _ => None
                | inr observer => Some (observers ++ [observer])%list
                end)
             (Some acc) l = Some observers →
       inr <$> observers = ((inr <$> acc) ++ ((λ entry, entry.2 client) <$> l))%list)
    ∧ ((∀ entry, entry ∈ l → ∃ observer, entry.2 client = inr observer) →
       is_Some (foldl (λ (observers : option (list Observer)) '(_, factory),
                         observers ← observers;
                         match factory client with
                         | inl _ => None
                         | inr observer => Some (observers ++ [observer])%list
                         end)
                      (Some acc) l)).
Proof.
  assert (∀ l' : list (string * Factory),
            foldl (λ (observers : option (list Observer)) '(_, factory),
                     observers ← observers;
                     match factory client with
                     | inl _ => None
                     | inr observer => Some (observers ++ [observer])%list
                     end) None l' = None) as Hnone.
  { induction l' as [|[n f] l' IH]; [done|]. simpl. apply IH. }
  induction l as [|[n f] l IH]; intros acc.
  - split.
    + intros observers [= <-]. by rewrite app_nil_r.
    + intros _. by eexists.
  - cbn [foldl]. simpl. destruct (f client) as [e|observer] eqn:Hf.
    + split.
      * intros observers H. by rewrite Hnone in H.
      * intros H. destruct (H (n, f)) as [ob Hob]; [apply list_elem_of_here|].
        simpl in Hob. congruence.
    + destruct (IH (acc ++ [observer])%list) as [IH1 IH2]. split.
      * intros observers H. rewrite (IH1 observers H).
        by rewrite fmap_app, <- app_assoc.
      * intros H. apply IH2. intros entry Hin. by apply H, list_elem_of_further.
Qed.

(** X26.  [InitObservers] is all or nothing: it returns (instead of
    stopping the process) exactly when every registered factory succeeds on
    the client, and the observers it returns are then those the factories
    built, one for each registered name, in the order in which the registry
    was ranged over. *)
Theorem InitObservers_all_or_nothing (o : RangeOrder) (client : Interface)
    (plugins : gmap string Factory) :
  admissible o →
  (is_Some (InitObservers o client plugins)
   ↔ ∀ name factory, plugins !! name = Some factory →
                     ∃ observer, factory client = inr observer)
  ∧ ∀ observers,
      InitObservers o client plugins = Some observers →
      inr <$> observers = (λ entry, entry.2 client) <$> range o plugins
      ∧ length observers = size plugins.
Proof.
  intros Ho. unfold InitObservers.
  destruct (InitObservers_fold client (range o plugins) []) as [H1 H2].
  split; [split|].
  - intros [observers H] name factory Hl.
    pose proof (H1 observers H) as Heq. simpl in Heq.
    assert ((name, factory) ∈ range o plugins) as Hin.
    { rewrite (Ho _ plugins). by apply elem_of_map_to_list. }
    assert (factory client ∈ inr <$> observers) as Hf.
    { rewrite Heq. apply list_elem_of_fmap. by exists (name, factory). }
    apply list_elem_of_fmap in Hf as (observer & -> & _). by exists observer.
  - intros H. apply H2. intros [name factory] Hin.
    rewrite (Ho _ plugins) in Hin. apply elem_of_map_to_list in Hin.
    by apply (H name factory).
  - intros observers H. pose proof (H1 observers H) as Heq. simpl in Heq.
    split; [done|].
    rewrite <- (length_fmap (@inr Error Observer) observers), Heq, length_fmap,
      (Ho _ plugins).
    apply length_map_to_list.
Qed.

Lemma InitObservers_all_or_nothing_witness :
  let client := Client (sample.rest [] []) in
  ∃ observers,
    InitObservers keyOrder client twoObservers = Some observers
    ∧ length observers = 2%nat.
Proof.
  intros client.
  destruct (InitObservers_all_or_nothing keyOrder client twoObservers keyOrder_admissible)
    as [Hiff Hall].
  destruct (proj2 Hiff) as [observers H].
  { intros name factory Hl. unfold twoObservers in Hl.
    apply lookup_insert_Some in Hl as [[_ <-]|[_ Hl]]; [by eexists|].
    apply lookup_insert_Some in Hl as [[_ <-]|[_ Hl]]; [by eexists|].
    by rewrite lookup_empty in Hl. }
  exists observers. split; [exact H|].
  destruct (Hall observers H) as [_ ->]. reflexivity.
Defined.

Lemma bindAll_Permutation (observers1 observers2 : list Observer) :
  observers1 ≡ₚ observers2 →
  NoDup (bindingKey <$> bindingsOf observers1) →
  manager.bindAll observers1 = manager.bindAll observers2.
Proof.
  intros Hp Hnd.
  assert (bindingsOf observers1 ≡ₚ bindingsOf observers2) as Hb.
  { unfold bindingsOf. by rewrite Hp. }
  assert (NoDup (bindingKey <$> bindingsOf observers2)) as Hnd2 by (by rewrite <- Hb).
  apply map_eq. intros key. rewrite !bindAll_bindings, !bindings_lookup.
  destruct (filter (λ binding, bindingKey binding = key) (bindingsOf observers1))
    as [|b rest] eqn:Hf.
  - assert (filter (λ binding, bindingKey binding = key) (bindingsOf observers2) = [])
      as ->; [|done].
    apply Permutation_nil_r. by rewrite <- Hb, Hf.
  - assert (b ∈ filter (λ binding, bindingKey binding = key) (bindingsOf observers1))
      as Hin by (rewrite Hf; apply list_elem_of_here).
    apply list_elem_of_filter in Hin as [<- Hin]. rewrite <- Hf.
    rewrite (last_filter_NoDup bindingKey _ b Hnd Hin).
    rewrite (last_filter_NoDup bindingKey _ b Hnd2); [done|]. by rewrite <- Hb.
Qed.

Lemma fmap_Permutation_inj {A B} (f : A → B) (l1 l2 : list A) :
  Inj (=) (=) f → f <$> l1 ≡ₚ f <$> l2 → l1 ≡ₚ l2.
Proof.
  intros Hf Hp. apply Permutation_map_inv in Hp as (l3 & Heq & Hp).
  apply (inj (fmap f)) in Heq as ->. by symmetry.
Qed.

(** X27.  The order in which the registry of observers is ranged over does
    not show in the reconciler when no two bindings of the registered
    observers have the same key: the tables of observer functions that
    [NewResourceManager] builds from the observers that [InitObservers]
    returns under two orders are the same.  (With a shared key the last
    binding wins, so the order would decide.) *)
Theorem observer_order_irrelevant (o1 o2 o : RangeOrder) (client kubeClient : Interface)
    (plugins : gmap string Factory) (observers1 observers2 : list Observer) :
  admissible o1 → admissible o2 →
  InitObservers o1 client plugins = Some observers1 →
  InitObservers o2 client plugins = Some observers2 →
  NoDup (bindingKey <$> bindingsOf observers1) →
  manager.observerFuncs (manager.NewResourceManager o kubeClient observers1)
  = manager.observerFuncs (manager.NewResourceManager o kubeClient observers2).
Proof.
  intros Ho1 Ho2 H1 H2 Hnd. simpl. apply bindAll_Permutation; [|done].
  unfold InitObservers in H1, H2.
  apply (proj1 (InitObservers_fold client (range o1 plugins) [])) in H1.
  apply (proj1 (InitObservers_fold client (range o2 plugins) [])) in H2.
  simpl in H1, H2.
  assert (@inr Error Observer <$> observers1 ≡ₚ inr <$> observers2) as Hp.
  { rewrite H1, H2. by rewrite (Ho1 _ plugins), (Ho2 _ plugins). }
  apply (fmap_Permutation_inj (@inr Error Observer)); [|exact Hp].
  by intros x y [= ->].
Qed.

Lemma reverseKeyOrder_admissible : admissible reverseKeyOrder.
Proof. intros A m. simpl. apply reverse_Permutation. Qed.

Lemma observer_order_irrelevant_witness :
  let client := Client (sample.rest [] []) in
  manager.bindAll [volumesObserver client; observer.observer client]
  = manager.bindAll [observer.observer client; volumesObserver client].
Proof.
  intros client.
  apply (observer_order_irrelevant keyOrder reverseKeyOrder keyOrder client client
           twoObservers [volumesObserver client; observer.observer client]
           [observer.observer client; volumesObserver client]
           keyOrder_admissible reverseKeyOrder_admissible).
  - reflexivity.
  - reflexivity.
  - apply (bool_decide_unpack _). vm_compute. reflexivity.
Defined.

(** ** When a sync is dirty *)

Lemma readMap_elsewhere (h h' : Heap) l (m : ResourceList) name :
  m ≠ Some l →
  (∀ l', l' ≠ l → h' !! l' = h !! l') →
  readMap h' m name = readMap h m name.
Proof.
  intros Hm He. destruct m as [l'|]; [|done]. simpl. unfold mapAt.
  rewrite He; [done|]. by intros ->.
Qed.

Lemma readMap_preserved (h h' : Heap) (m : ResourceList) name :
  preserved h h' → allocatedIn h m → readMap h' m name = readMap h m name.
Proof.
  intros Hp Ha. destruct m as [l|]; [|done]. simpl in *. unfold mapAt.
  by rewrite Hp.
Qed.

Lemma allocatedIn_preserved (h h' : Heap) (m : ResourceList) :
  preserved h h' → allocatedIn h m → allocatedIn h' m.
Proof.
  intros Hp Ha. destruct m as [l|]; [|done]. simpl in *. by rewrite Hp.
Qed.

Lemma range_names o (m : gmap string Quantity) name :
  admissible o → name ∈ (range o m).*1 ↔ is_Some (m !! name).
Proof.
  intros Ho. split; [|by apply ranged].
  intros Hin. apply list_elem_of_fmap in Hin as ([n q] & -> & Hin).
  rewrite (Ho _ m) in Hin. apply elem_of_map_to_list in Hin. by exists q.
Qed.

(** The loop over the names, with observer functions that settle: it
    ends without error, and [dirty] is set at its end exactly when it was
    set before or a name with an observer function has a value other than
    the one previously allocated. *)
Lemma observeNames_dirty_iff observerFuncs controller prev group latest l inv val :
  Resources latest = Some l →
  steady observerFuncs (Namespace (RC_Meta controller)) inv val →
  rules prev (GroupBy group) (RuleType group) ≠ Some l →
  ∀ names store dirty w,
    inv store →
    ∃ dirty' w',
      manager.observeNames observerFuncs controller prev group latest names store dirty w
      = Returns (dirty', None) w'
      ∧ (dirty' = true
         ↔ dirty = true
           ∨ ∃ name,
               name ∈ names
               ∧ is_Some (observerFuncs
                            !! observerFuncKey (GroupBy group) (RuleType group) name)
               ∧ val (observerFuncKey (GroupBy group) (RuleType group) name)
                 ≠ Value (default zero
                            (readMap (heap w)
                               (rules prev (GroupBy group) (RuleType group)) name)))
      ∧ ∀ l', l' ≠ l → heap w' !! l' = heap w !! l'.
Proof.
  intros Hl Hs Hp. induction names as [|name names IH]; intros store dirty w Hinv.
  - exists dirty, w. split; [done|]. split; [|done]. split; [by left|].
    intros [H | (name & Hin & _)]; [done|]. by apply elem_of_nil in Hin.
  - cbn [manager.observeNames].
    destruct (observerFuncs !! observerFuncKey (GroupBy group) (RuleType group) name)
      as [f|] eqn:Hf.
    + destruct (Hs _ f store Hf Hinv) as (store' & q & Hcall & Hinv' & Hval).
      rewrite Hcall, Hl. unfold mbind, M_bind, bind.
      rewrite writeMap_Returns. cbn [getHeap heap setHeap].
      set (h1 := <[l := <[name := q]> (mapAt (heap w) l)]> (heap w)).
      assert (∀ l', l' ≠ l → h1 !! l' = heap w !! l') as He1.
      { intros l' Hne. subst h1. by apply lookup_insert_ne. }
      rewrite (readMap_elsewhere (heap w) h1 l _ name Hp He1).
      set (prevValue :=
             Value (default zero
                      (readMap (heap w) (rules prev (GroupBy group) (RuleType group))
                         name))).
      destruct (IH store' (dirty || negb (Value q =? prevValue)) (setHeap h1 w) Hinv')
        as (dirty' & w' & Hr & Hiff & He).
      exists dirty', w'. split; [exact Hr|]. split.
      * rewrite Hiff. cbn [heap setHeap]. split.
        -- intros [Hd | (name' & Hin & Hsome & Hne)].
           ++ apply orb_true_iff in Hd as [Hd|Hd]; [by left|]. right.
              exists name. split; [apply list_elem_of_here|]. split; [by eexists|].
              rewrite <- Hval. apply negb_true_iff, Z.eqb_neq in Hd. exact Hd.
           ++ right. exists name'. split; [by apply list_elem_of_further|].
              split; [done|].
              by rewrite <- (readMap_elsewhere (heap w) h1 l _ name' Hp He1).
        -- intros [Hd | (name' & Hin & Hsome & Hne)].
           ++ left. by rewrite Hd.
           ++ apply elem_of_cons in Hin as [->|Hin].
              ** left. apply orb_true_iff. right.
                 apply negb_true_iff, Z.eqb_neq. by rewrite Hval.
              ** right. exists name'. split; [done|]. split; [done|].
                 by rewrite (readMap_elsewhere (heap w) h1 l _ name' Hp He1).
      * intros l' Hne. rewrite He by done. cbn [heap setHeap]. by apply He1.
    + destruct (IH store dirty w Hinv) as (dirty' & w' & Hr & Hiff & He).
      exists dirty', w'. split; [exact Hr|]. split; [|exact He].
      rewrite Hiff. split.
      * intros [Hd | (name' & Hin & Hsome & Hne)]; [by left|]. right.
        exists name'. split; [by apply list_elem_of_further|]. done.
      * intros [Hd | (name' & Hin & Hsome & Hne)]; [by left|].
        apply elem_of_cons in Hin as [->|Hin].
        -- destruct Hsome as [f Hsome]. by pose proof (eq_trans (eq_sym Hf) Hsome).
        -- right. by exists name'.
Qed.

(** The loop over the groups, with observer functions that settle and
    groups whose maps live in the heap. *)
Lemma observeGroups_dirty_iff o observerFuncs controller prev inv val :
  admissible o →
  inv NewStore →
  steady observerFuncs (Namespace (RC_Meta controller)) inv val →
  ∀ groups index allocated dirty w,
    (∀ g, g ∈ groups → allocatedIn (heap w) (Resources g)) →
    (∀ groupBy ruleType, allocatedIn (heap w) (rules prev groupBy ruleType)) →
    ∃ allocated' dirty' w',
      manager.observeGroups o observerFuncs controller prev index groups allocated dirty w
      = Returns (allocated', dirty', None) w'
      ∧ (dirty' = true
         ↔ dirty = true
           ∨ ∃ group name,
               group ∈ groups
               ∧ is_Some (readMap (heap w) (Resources group) name)
               ∧ is_Some (observerFuncs
                            !! observerFuncKey (GroupBy group) (RuleType group) name)
               ∧ val (observerFuncKey (GroupBy group) (RuleType group) name)
                 ≠ Value (default zero
                            (readMap (heap w)
                               (rules prev (GroupBy group) (RuleType group)) name)))
      ∧ preserved (heap w) (heap w').
Proof.
  intros Ho Hinv Hs.
  induction groups as [|group groups IH]; intros index allocated dirty w Hg Hprev.
  - exists allocated, dirty, w. split; [done|]. split; [|apply preserved_refl].
    split; [by left|]. intros [H | (g & name & Hin & _)]; [done|].
    by apply elem_of_nil in Hin.
  - cbn [manager.observeGroups].
    unfold mbind, M_bind, bind, getHeap, putHeap, newMap. cbn [heap setHeap].
    set (l := fresh (dom (heap w))).
    set (h1 := <[l := ∅]> (heap w)).
    set (latest := {| GroupBy := GroupBy group; RuleType := RuleType group;
                      Resources := Some l |}).
    assert (heap w !! l = None) as Hfresh.
    { apply not_elem_of_dom. apply is_fresh. }
    assert (∀ m, allocatedIn (heap w) m → m ≠ Some l) as Hother.
    { intros m Ha ->. simpl in Ha. rewrite Hfresh in Ha. by destruct Ha. }
    assert (∀ l', l' ≠ l → h1 !! l' = heap w !! l') as He1.
    { intros l' Hne. subst h1. by apply lookup_insert_ne. }
    assert (entries h1 (Resources group) = entries (heap w) (Resources group)) as Hentries.
    { pose proof (Hother _ (Hg group (list_elem_of_here _ _))) as Hne.
      destruct (Resources group) as [lg|]; [|done]. simpl. unfold mapAt.
      rewrite He1; [done|]. by intros ->. }
    rewrite Hentries.
    destruct (observeNames_dirty_iff observerFuncs controller prev group latest l inv val
                eq_refl Hs (Hother _ (Hprev _ _))
                (range o (entries (heap w) (Resources group))).*1 NewStore dirty
                (setHeap h1 w) Hinv)
      as (dirty1 & w2 & Hr & Hiff1 & He2).
    rewrite Hr. cbn [heap setHeap] in Hiff1, He2.
    assert (preserved (heap w) (heap w2)) as Hp2.
    { intros l' Hl'. assert (l' ≠ l) as Hne.
      { intros ->. rewrite Hfresh in Hl'. by destruct Hl'. }
      by rewrite He2, He1. }
    destruct (IH (S index) (<[index := latest]> allocated) dirty1 w2)
      as (allocated' & dirty' & w' & Hr' & Hiff' & Hp').
    { intros g Hin. eapply allocatedIn_preserved; [exact Hp2|].
      by apply Hg, list_elem_of_further. }
    { intros groupBy ruleType. eapply allocatedIn_preserved; [exact Hp2|]. apply Hprev. }
    exists allocated', dirty', w'. split; [exact Hr'|].
    split; [|by eapply preserved_trans].
    rewrite Hiff', Hiff1. split.
    + intros [[Hd | (name & Hin & Hsome & Hne)] | (g & name & Hin & Hread & Hsome & Hne)].
      * by left.
      * right. exists group, name. split; [apply list_elem_of_here|].
        split; [|split; [done|]].
        -- rewrite readMap_entries. by apply (range_names o).
        -- by rewrite <- (readMap_elsewhere (heap w) h1 l _ name
                            (Hother _ (Hprev _ _)) He1).
      * right. exists g, name. split; [by apply list_elem_of_further|].
        rewrite <- (readMap_preserved (heap w) (heap w2) (Resources g) name Hp2)
          by (by apply Hg, list_elem_of_further).
        split; [done|]. split; [done|].
        by rewrite <- (readMap_preserved (heap w) (heap w2) _ name Hp2 (Hprev _ _)).
    + intros [Hd | (g & name & Hin & Hread & Hsome & Hne)]; [by left; left|].
      apply elem_of_cons in Hin as [->|Hin].
      * left. right. exists name. split; [|split; [done|]].
        -- apply (range_names o); [done|]. by rewrite <- readMap_entries.
        -- by rewrite (readMap_elsewhere (heap w) h1 l _ name
                         (Hother _ (Hprev _ _)) He1).
      * right. exists g, name. split; [done|].
        rewrite (readMap_preserved (heap w) (heap w2) (Resources g) name Hp2)
          by (by apply Hg, list_elem_of_further).
        split; [done|]. split; [done|].
        by rewrite (readMap_preserved (heap w) (heap w2) _ name Hp2 (Hprev _ _)).
Qed.

Lemma rules_allocatedIn h groups groupBy ruleType :
  (∀ g, g ∈ groups → allocatedIn h (Resources g)) →
  allocatedIn h (rules (foldl addGroup ∅ groups) groupBy ruleType).
Proof.
  intros Hg. rewrite rules_foldl. unfold lastGroup.
  destruct (last _) as [g|] eqn:Hlast; [|done]. simpl. apply Hg.
  apply last_Some_elem_of, list_elem_of_filter in Hlast. by destruct Hlast.
Qed.

(** X28.  When a sync is dirty.  Take observer functions that settle
    (each returns no error and, under its key, a quantity of a fixed value)
    and a controller whose maps live in the heap.  The sync then ends
    without an evaluator error, and [dirty] is set, so that the observation
    is handed to the store, exactly when the controller was never observed
    (Status.Allowed or Status.Allocated is nil) or some resource name of a
    group of Spec.Allowed that has an observer function is observed with a
    value other than that of the entry allocated for it (0 without an
    entry).  The values compared are those of [Value], the rounded-up
    integer view, for every resource, CPU included; otherwise the sync
    hands nothing over. *)
Theorem sync_dirty_exactly (o : RangeOrder) (kubeClient : Interface)
    (observerFuncs : gmap string ObserverFunc) (controller : ResourceController)
    (w : World) (inv : Store → Prop) (val : string → Z) :
  admissible o →
  inv NewStore →
  steady observerFuncs (Namespace (RC_Meta controller)) inv val →
  wellFormed (heap w) controller →
  ∃ observation dirty w',
    manager.observe o observerFuncs controller w = Returns (observation, dirty, None) w'
    ∧ manager.syncResourceController o kubeClient observerFuncs controller w
      = (if dirty
         then Create kubeClient (Namespace (RC_Meta controller)) observation w'
         else Returns None w')
    ∧ (dirty = true
       ↔ Allowed (Status controller) = None
         ∨ Allocated (Status controller) = None
         ∨ ∃ group name,
             group ∈ elems (Spec_Allowed (Spec controller))
             ∧ is_Some (readMap (heap w) (Resources group) name)
             ∧ is_Some (observerFuncs
                          !! observerFuncKey (GroupBy group) (RuleType group) name)
             ∧ val (observerFuncKey (GroupBy group) (RuleType group) name)
               ≠ Value (default zero
                          (allocatedRule (heap w) (Status controller)
                             (GroupBy group) (RuleType group) name))).
Proof.
  intros Ho Hinv Hs [Hspec Hstatus].
  unfold manager.syncResourceController, manager.observe. simpl.
  rewrite copy_make.
  set (groups := elems (Spec_Allowed (Spec controller))).
  set (prev := foldl addGroup ∅ (elems (Allocated (Status controller)))).
  set (dirty0 := negb _ || negb _).
  destruct (observeGroups_dirty_iff o observerFuncs controller prev inv val Ho Hinv Hs
              groups 0%nat (make (length groups)) dirty0 w Hspec)
    as (allocated & dirty & w' & Hr & Hiff & _).
  { intros groupBy ruleType. by apply rules_allocatedIn. }
  eexists _, dirty, w'. unfold mbind, M_bind, bind. rewrite Hr. simpl.
  split; [reflexivity|]. split; [by destruct dirty|].
  rewrite Hiff. subst dirty0.
  split.
  - intros [Hd | H]; [|by right; right].
    apply orb_true_iff in Hd as [Hd|Hd].
    + left. by destruct (Allowed (Status controller)).
    + right. left. by destruct (Allocated (Status controller)).
  - intros [H | [H | H]]; [| |by right].
    + left. by rewrite H.
    + left. rewrite H. apply orb_true_r.
Qed.

Lemma bindAll_Forall (P : ObserverFunc → Prop) observers :
  Forall (λ binding, P (Func binding)) (bindingsOf observers) →
  map_Forall (λ _ f, P f) (manager.bindAll observers).
Proof.
  intros HP key f Hf. rewrite bindAll_bindings, bindings_lookup in Hf.
  destruct (last _) as [b|] eqn:Hlast; [|done]. simpl in Hf. injection Hf as <-.
  apply last_Some_elem_of, list_elem_of_filter in Hlast as [_ Hin].
  by apply (proj1 (Forall_forall _ _) HP).
Qed.

Lemma cachedFrom_NewStore c namespace : cachedFrom c namespace NewStore.
Proof. by repeat split. Qed.

Lemma overPods_steady c namespace g store :
  (Pods_List c namespace).2 = None →
  cachedFrom c namespace store →
  ∃ store',
    observer.overPods c g store namespace
    = (store', (Some (g (Pod_Items (Pods_List c namespace).1)), None))
    ∧ cachedFrom c namespace store'.
Proof.
  intros He Hinv. unfold observer.overPods, observer.pods.
  destruct (store_pods store) as [items|] eqn:Hc.
  - rewrite (proj1 Hinv items Hc). by exists store.
  - destruct Hinv as (_ & Hs & Hr).
    destruct (Pods_List c namespace) as [items err] eqn:Hlist. simpl in He. subst err.
    eexists. split; [reflexivity|]. split; [|done].
    simpl. rewrite Hlist. by intros ? [= <-].
Qed.

Lemma overServices_steady c namespace g store :
  (Services_List c namespace).2 = None →
  cachedFrom c namespace store →
  ∃ store',
    observer.overServices c g store namespace
    = (store', (Some (g (Service_Items (Services_List c namespace).1)), None))
    ∧ cachedFrom c namespace store'.
Proof.
  intros He Hinv. unfold observer.overServices, observer.services.
  destruct (store_services store) as [items|] eqn:Hc.
  - rewrite (proj1 (proj2 Hinv) items Hc). by exists store.
  - destruct Hinv as (Hp & _ & Hr).
    destruct (Services_List c namespace) as [items err] eqn:Hlist.
    simpl in He. subst err.
    eexists. split; [reflexivity|]. split; [done|]. split; [|done].
    simpl. rewrite Hlist. by intros ? [= <-].
Qed.

Lemma overReplicationControllers_steady c namespace g store :
  (ReplicationControllers_List c namespace).2 = None →
  cachedFrom c namespace store →
  ∃ store',
    observer.overReplicationControllers c g store namespace
    = (store',
       (Some (g (ReplicationController_Items (ReplicationControllers_List c namespace).1)),
        None))
    ∧ cachedFrom c namespace store'.
Proof.
  intros He Hinv.
  unfold observer.overReplicationControllers, observer.replicationControllers.
  destruct (store_replicationControllers store) as [items|] eqn:Hc.
  - rewrite (proj2 (proj2 Hinv) items Hc). by exists store.
  - destruct Hinv as (Hp & Hs & _).
    destruct (ReplicationControllers_List c namespace) as [items err] eqn:Hlist.
    simpl in He. subst err.
    eexists. split; [reflexivity|]. split; [done|]. split; [done|].
    simpl. rewrite Hlist. by intros ? [= <-].
Qed.

Lemma overPods_settles c namespace g store :
  (Pods_List c namespace).2 = None →
  cachedFrom c namespace store →
  ∃ store' q,
    observer.overPods c g store namespace = (store', (Some q, None))
    ∧ cachedFrom c namespace store'
    ∧ Value q = Value (default zero (observer.overPods c g NewStore namespace).2.1).
Proof.
  intros He Hinv.
  destruct (overPods_steady c namespace g store He Hinv) as (s1 & -> & H1).
  destruct (overPods_steady c namespace g NewStore He (cachedFrom_NewStore c namespace))
    as (s2 & -> & _).
  by eexists _, _.
Qed.

Lemma overServices_settles c namespace g store :
  (Services_List c namespace).2 = None →
  cachedFrom c namespace store →
  ∃ store' q,
    observer.overServices c g store namespace = (store', (Some q, None))
    ∧ cachedFrom c namespace store'
    ∧ Value q = Value (default zero (observer.overServices c g NewStore namespace).2.1).
Proof.
  intros He Hinv.
  destruct (overServices_steady c namespace g store He Hinv) as (s1 & -> & H1).
  destruct (overServices_steady c namespace g NewStore He
              (cachedFrom_NewStore c namespace)) as (s2 & -> & _).
  by eexists _, _.
Qed.

Lemma overReplicationControllers_settles c namespace g store :
  (ReplicationControllers_List c namespace).2 = None →
  cachedFrom c namespace store →
  ∃ store' q,
    observer.overReplicationControllers c g store namespace = (store', (Some q, None))
    ∧ cachedFrom c namespace store'
    ∧ Value q
      = Value (default zero
                 (observer.overReplicationControllers c g NewStore namespace).2.1).
Proof.
  intros He Hinv.
  destruct (overReplicationControllers_steady c namespace g store He Hinv)
    as (s1 & -> & H1).
  destruct (overReplicationControllers_steady c namespace g NewStore He
              (cachedFrom_NewStore c namespace)) as (s2 & -> & _).
  by eexists _, _.
Qed.

(** The built-in observer functions settle when the listings of the
    client return no error: the store only ever caches those listings. *)
Lemma builtin_steady c namespace :
  (Pods_List c namespace).2 = None →
  (Services_List c namespace).2 = None →
  (ReplicationControllers_List c namespace).2 = None →
  steady (manager.bindAll [observer.observer c]) namespace (cachedFrom c namespace)
    (observedValue (manager.bindAll [observer.observer c]) namespace).
Proof.
  intros Hp Hs Hr key f store Hf Hinv. unfold observedValue.
  rewrite (eq_trans eq_refl Hf).
  revert key f Hf store Hinv.
  apply (bindAll_Forall
           (λ f, ∀ store, cachedFrom c namespace store →
                   ∃ store' q,
                     f store namespace = (store', (Some q, None))
                     ∧ cachedFrom c namespace store'
                     ∧ Value q = Value (default zero (f NewStore namespace).2.1))).
  unfold bindingsOf.
  change ([observer.observer c] ≫= ObserverFuncBindings)
    with (ObserverFuncBindings (observer.observer c) ++ [])%list.
  rewrite app_nil_r.
  repeat constructor; cbn [Func observer.binding]; intros store Hinv.
  all: first [ by apply overPods_settles
             | by apply overServices_settles
             | by apply overReplicationControllers_settles ].
Qed.

Lemma sync_dirty_exactly_witness :
  let c := Client sample.onePodStore in
  let observerFuncs := manager.bindAll [observer.observer c] in
  ∃ observation w',
    manager.observe keyOrder observerFuncs sample.namespaceMax sample.podsWorld
    = Returns (observation, true, None) w'
    ∧ manager.syncResourceController keyOrder c observerFuncs sample.namespaceMax
        sample.podsWorld
      = Create c "ns" observation w'.
Proof.
  intros c observerFuncs.
  destruct (sync_dirty_exactly keyOrder c observerFuncs sample.namespaceMax
              sample.podsWorld (cachedFrom c "ns") (observedValue observerFuncs "ns")
              keyOrder_admissible (cachedFrom_NewStore c "ns")
              (builtin_steady c "ns" eq_refl eq_refl eq_refl))
    as (observation & dirty & w' & Hobs & Hsync & Hiff).
  - split; intros g Hin; apply list_elem_of_singleton in Hin as ->;
      simpl; eexists; reflexivity.
  - assert (dirty = true) as ->.
    { apply Hiff. right. right.
      exists (sample.group "Namespace" "Max" 1%positive), "Pods".
      split; [apply list_elem_of_here|]. split; [eexists; reflexivity|].
      split; [eexists; reflexivity|]. vm_compute. discriminate. }
    exists observation, w'. split; [exact Hobs | exact Hsync].
Defined.

(** ** What the namespace function charges for a pod *)





